(** * TinyG: dispatch loop and temperature controller

    A shallow embedding of two pieces of the TinyG firmware:

    - the cooperative dispatch loop ([DISPATCH], [_controller_HSM] of
      [firmware/tinyg/controller.cpp] and [_controller] of
      [firmware/temperature/tinyg_tc.c]);
    - the temperature controller of [firmware/temperature/tinyg_tc.c]:
      heater state machine, PID regulator, temperature sensor with
      outlier rejection, PWM output and the tick timer.

    Conventions of the embedding.

    - The C globals [device], [heater], [pid], [sensor] and the timer
      registers [OCR2A], [OCR2B] are the fields of one record [World];
      every C function is a function on [World].
    - [uint8_t] and [int8_t] values are integers of [Z]; the wrap-around of
      an increment or decrement is written out with [uint8] and [int8].
    - A C [double] is an exact rational of [Q]: rounding, overflow and NaN
      are outside that model.  The only place where the program itself
      divides by a zero it passes ([pwm_off] calls [pwm_set_freq (0)]) is
      modelled with the explicit type [period], which has an infinite
      value.  The PID regulator, whose saturation filter is decided by
      overflow and NaN, is embedded a second time over IEEE 754
      floating-point numbers (module [IEEE]).
    - The constants of [tinyg_tc.h], which is not among the sources, are
      the fields of [tc_config]; the functions are parameterised by it.
    - The analog-to-digital converter is an oracle [adc : nat -> Z] giving
      the raw value of the n-th conversion; [World] counts conversions. *)

From Stdlib Require Import ZArith QArith Qabs Qminmax Qround List Lia Lqa Bool.
From Stdlib Require Import SpecFloat.
Import ListNotations.

Set Implicit Arguments.

(** ** Machine integers and doubles

    A [double] is a rational of [Q]; [Qltb], [Qgtb] and [Qleb] are the C
    comparisons [<], [>] and [<=]. *)

Definition uint8 (z : Z) : Z := (z mod 256)%Z.
Definition int8 (z : Z) : Z := ((z + 128) mod 256 - 128)%Z.
Definition uint16 (z : Z) : Z := (z mod 65536)%Z.

Definition Qltb (a b : Q) : bool := negb (Qle_bool b a).
Definition Qgtb (a b : Q) : bool := Qltb b a.
Definition Qleb (a b : Q) : bool := Qle_bool a b.

(** [fabs] *)
Definition fabs (x : Q) : Q := Qabs x.

(** Truncation toward zero, the integer part taken by a C conversion. *)
Definition Qtrunc (q : Q) : Z := Z.quot (Qnum q) (Zpos (Qden q)).

Definition is_eq {A : Type} (dec : forall a b : A, {a = b} + {a <> b})
  (a b : A) : bool :=
  if dec a b then true else false.

(** ** Status codes

    [kinen_core.h] ([SC_...]) and [tinyg.h] ([STAT_...]) are not among the
    sources; both dispatch loops only compare a status with [..._EAGAIN]. *)

(** Modelled from the spec: the status enumeration of [tinyg.h] and
    [kinen_core.h] is missing; the spec's three outcomes [Proceed],
    [NotYetDone], [NoOp] are [STAT_OK], [STAT_EAGAIN], [STAT_NOOP], and every
    other status the callbacks return is [STAT_ERR]. *)
Inductive stat_t : Set :=
| STAT_OK
| STAT_EAGAIN
| STAT_NOOP
| STAT_ERR (code : Z).

Definition stat_t_eq_dec : forall a b : stat_t, {a = b} + {a <> b}.
Proof. decide equality. apply Z.eq_dec. Defined.

Definition stat_eqb : stat_t -> stat_t -> bool := is_eq stat_t_eq_dec.

Definition SC_OK := STAT_OK.
Definition SC_EAGAIN := STAT_EAGAIN.
Definition SC_NOOP := STAT_NOOP.

(** ** The dispatch loop

    [#define DISPATCH(func) if (func == STAT_EAGAIN) return;]

    A controller body is a sequence of [DISPATCH] lines: each callback runs
    on the state left by the one before, and the first [STAT_EAGAIN] ends
    the pass. *)

Section Dispatch.
Variable St : Type.

Definition callback := St -> stat_t * St.

Fixpoint dispatch (fs : list callback) (s : St) : St :=
  match fs with
  | [] => s
  | f :: rest =>
      let (r, s') := f s in
      if stat_eqb r STAT_EAGAIN then s' else dispatch rest s'
  end.

(** Every callback of the list, run in order from [s], returns a status
    other than [STAT_EAGAIN]; [s'] is the state they leave. *)
Inductive falls_through : list callback -> St -> St -> Prop :=
| ft_nil : forall s, falls_through [] s s
| ft_cons : forall f fs s s'',
    fst (f s) <> STAT_EAGAIN ->
    falls_through fs (snd (f s)) s'' ->
    falls_through (f :: fs) s s''.
End Dispatch.

(** Instrumentation used to observe which callbacks a pass invokes: the
    callback at position [i] appends [i] to a log when it is called. *)
Section Instrument.
Variable St : Type.

Definition logged (i : nat) (f : callback St) : callback (list nat * St) :=
  fun ls =>
    let (r, s') := f (snd ls) in (r, (fst ls ++ [i], s')).

Fixpoint instrument_from (i : nat) (fs : list (callback St))
  : list (callback (list nat * St)) :=
  match fs with
  | [] => []
  | f :: rest => logged i f :: instrument_from (S i) rest
  end.

Definition run_logged (i : nat) (fs : list (callback St))
  (ls : list nat * St) : list nat * St :=
  dispatch (instrument_from i fs) ls.

(** The positions of the callbacks that one pass over [fs] invokes. *)
Definition invoked (fs : list (callback St)) (s : St) : list nat :=
  fst (run_logged 0 fs ([], s)).
End Instrument.

(** [_controller_HSM] of controller.cpp.  The callbacks live in other
    modules of the firmware; they are the parameters of the section. *)
Section ControllerHSM.
Variable Machine : Type.
Variables
  (hw_hard_reset_handler hw_bootloader_handler _shutdown_idler
   _limit_switch_handler cm_feedhold_sequencing_callback
   mp_plan_hold_callback _system_assertions st_motor_power_callback
   sr_status_report_callback qr_queue_report_callback cm_arc_callback
   cm_homing_callback cm_jogging_callback cm_probe_callback
   _sync_to_planner _sync_to_tx_buffer set_baud_callback
   _command_dispatch : callback Machine).

Definition _normal_idler : callback Machine := fun m => (STAT_OK, m).

Definition controller_HSM_list : list (callback Machine) :=
  [ hw_hard_reset_handler;
    hw_bootloader_handler;
    _shutdown_idler;
    _limit_switch_handler;
    cm_feedhold_sequencing_callback;
    mp_plan_hold_callback;
    _system_assertions;
    st_motor_power_callback;
    sr_status_report_callback;
    qr_queue_report_callback;
    cm_arc_callback;
    cm_homing_callback;
    cm_jogging_callback;
    cm_probe_callback;
    _sync_to_planner;
    _sync_to_tx_buffer;
    set_baud_callback;
    _command_dispatch;
    _normal_idler ].

Definition _controller_HSM (m : Machine) : Machine :=
  dispatch controller_HSM_list m.
End ControllerHSM.

(** ** Temperature controller: constants and enumerations of tinyg_tc.h *)

(** Modelled from the spec: [tinyg_tc.h] is missing, so the values of its
    macros are the fields of this record.  The macros used as [double] are
    rationals; the ones stored in [uint8_t] fields or registers are
    integers.  [F_CPU] and [PWM_PRESCALE] are positive integer constants.
    [uint8_of_out_of_range] stands for the byte the compiler produces when
    a [double] outside [0, 256) is converted to [uint8_t], which C leaves
    undefined. *)
Record tc_config : Set := {
  HEATER_TICK_SECONDS : Q;
  HEATER_AMBIENT_TIMEOUT : Q;
  HEATER_REGULATION_TIMEOUT : Q;
  HEATER_AMBIENT_TEMPERATURE : Q;
  HEATER_OVERHEAT_TEMPERATURE : Q;
  PID_DT : Q;
  PID_EPSILON : Q;
  PID_MAX_OUTPUT : Q;
  PID_MIN_OUTPUT : Q;
  PID_Kp : Q;
  PID_Ki : Q;
  PID_Kd : Q;
  SENSOR_SAMPLES_PER_READING : Z;
  SENSOR_RETRIES : Z;
  SENSOR_VARIANCE_RANGE : Q;
  SENSOR_DISCONNECTED_TEMPERATURE : Q;
  SENSOR_NO_POWER_TEMPERATURE : Q;
  SENSOR_SLOPE : Q;
  SENSOR_OFFSET : Q;
  ABSOLUTE_ZERO : Q;
  SURFACE_OF_THE_SUN : Q;
  HOTTER_THAN_THE_SUN : Q;
  ADC_CHANNEL : Z;
  F_CPU : positive;
  PWM_PRESCALE : positive;
  PWM_FREQUENCY : Q;
  PWM_MIN_RES : Z;
  PWM_MAX_RES : Z;
  uint8_of_out_of_range : Z
}.

(** Modelled from the spec: the heater states of the missing [tinyg_tc.h].
    [heater_init] clears the struct with [memset], and the spec has the
    heater created in [Off], so [HEATER_OFF] is the zero value.
    [heater.state] is a [uint8_t], and [heater_off] stores any byte it is
    passed: a byte that is the value of none of the four enumerators is
    [HEATER_STATE_OTHER]; it compares unequal to each of them. *)
Inductive heater_state : Set :=
| HEATER_OFF
| HEATER_SHUTDOWN
| HEATER_HEATING
| HEATER_AT_TARGET
| HEATER_STATE_OTHER (byte : Z).

(** Modelled from the spec: the heater codes of the missing [tinyg_tc.h];
    [HEATER_OK] names the zero value left by [memset]. *)
Inductive heater_code : Set :=
| HEATER_OK
| HEATER_AMBIENT_TIMED_OUT
| HEATER_REGULATION_TIMED_OUT.

(** Modelled from the spec: the PID states of the missing [tinyg_tc.h]. *)
Inductive pid_state : Set :=
| PID_OFF
| PID_ON.

(** Modelled from the spec: the PID codes of the missing [tinyg_tc.h]; the
    source only ever stores the zero value. *)
Inductive pid_code : Set :=
| PID_CODE_ZERO.

(** Modelled from the spec: the sensor states of the missing
    [tinyg_tc.h]. *)
Inductive sensor_state : Set :=
| SENSOR_OFF
| SENSOR_HAS_NO_DATA
| SENSOR_HAS_DATA
| SENSOR_SHUTDOWN.

(** Modelled from the spec: the sensor codes of the missing [tinyg_tc.h];
    [SENSOR_IDLE] names the zero value left by [memset] in [sensor_init]. *)
Inductive sensor_code : Set :=
| SENSOR_IDLE
| SENSOR_IS_READING
| SENSOR_READING_COMPLETE
| SENSOR_READING_FAILED_BAD_READINGS
| SENSOR_READING_FAILED_DISCONNECTED
| SENSOR_READING_FAILED_NO_POWER.

Definition heater_state_eq_dec : forall a b : heater_state, {a = b} + {a <> b}.
Proof. decide equality. apply Z.eq_dec. Defined.

Definition pid_state_eq_dec : forall a b : pid_state, {a = b} + {a <> b}.
Proof. decide equality. Defined.

Definition sensor_state_eq_dec : forall a b : sensor_state, {a = b} + {a <> b}.
Proof. decide equality. Defined.

Definition sensor_code_eq_dec : forall a b : sensor_code, {a = b} + {a <> b}.
Proof. decide equality. Defined.

Definition heater_state_eqb := is_eq heater_state_eq_dec.
Definition pid_state_eqb := is_eq pid_state_eq_dec.
Definition sensor_state_eqb := is_eq sensor_state_eq_dec.
Definition sensor_code_eqb := is_eq sensor_code_eq_dec.

(** ** The static data of tinyg_tc.c *)

(** The value of [device.pwm_freq]: [F_CPU / PWM_PRESCALE / freq] is
    infinite, or not a number, when [freq] is zero. *)
Inductive period : Set :=
| Period (q : Q)
| PeriodInf
| PeriodNaN.

(** [struct Device]; the byte array for the Kinen channel is left out. *)
Module Device.
Record t : Set := mk {
  tick_flag : Z;
  tick_100ms_count : Z;
  tick_1sec_count : Z;
  pwm_freq : period
}.
Definition set_tick_flag v d := mk v (tick_100ms_count d) (tick_1sec_count d) (pwm_freq d).
Definition set_tick_100ms_count v d := mk (tick_flag d) v (tick_1sec_count d) (pwm_freq d).
Definition set_tick_1sec_count v d := mk (tick_flag d) (tick_100ms_count d) v (pwm_freq d).
Definition set_pwm_freq v d := mk (tick_flag d) (tick_100ms_count d) (tick_1sec_count d) v.
End Device.

(** [struct Heater] *)
Module Heater.
Record t : Set := mk {
  state : heater_state;
  code : heater_code;
  temperature : Q;
  setpoint : Q;
  regulation_timer : Q;
  ambient_timeout : Q;
  regulation_timeout : Q;
  ambient_temperature : Q;
  overheat_temperature : Q
}.
Definition set_state v h :=
  mk v (code h) (temperature h) (setpoint h) (regulation_timer h)
     (ambient_timeout h) (regulation_timeout h) (ambient_temperature h)
     (overheat_temperature h).
Definition set_code v h :=
  mk (state h) v (temperature h) (setpoint h) (regulation_timer h)
     (ambient_timeout h) (regulation_timeout h) (ambient_temperature h)
     (overheat_temperature h).
Definition set_temperature v h :=
  mk (state h) (code h) v (setpoint h) (regulation_timer h)
     (ambient_timeout h) (regulation_timeout h) (ambient_temperature h)
     (overheat_temperature h).
Definition set_setpoint v h :=
  mk (state h) (code h) (temperature h) v (regulation_timer h)
     (ambient_timeout h) (regulation_timeout h) (ambient_temperature h)
     (overheat_temperature h).
Definition set_regulation_timer v h :=
  mk (state h) (code h) (temperature h) (setpoint h) v
     (ambient_timeout h) (regulation_timeout h) (ambient_temperature h)
     (overheat_temperature h).
End Heater.

(** [struct PIDstruct] *)
Module PID.
Record t : Set := mk {
  state : pid_state;
  code : pid_code;
  output : Q;
  output_max : Q;
  output_min : Q;
  error : Q;
  prev_error : Q;
  integral : Q;
  derivative : Q;
  dt : Q;
  Kp : Q;
  Ki : Q;
  Kd : Q;
  temperature : Q;
  setpoint : Q
}.
Definition set_output v p :=
  mk (state p) (code p) v (output_max p) (output_min p) (error p)
     (prev_error p) (integral p) (derivative p) (dt p) (Kp p) (Ki p) (Kd p)
     (temperature p) (setpoint p).
Definition set_error v p :=
  mk (state p) (code p) (output p) (output_max p) (output_min p) v
     (prev_error p) (integral p) (derivative p) (dt p) (Kp p) (Ki p) (Kd p)
     (temperature p) (setpoint p).
Definition set_prev_error v p :=
  mk (state p) (code p) (output p) (output_max p) (output_min p) (error p)
     v (integral p) (derivative p) (dt p) (Kp p) (Ki p) (Kd p)
     (temperature p) (setpoint p).
Definition set_integral v p :=
  mk (state p) (code p) (output p) (output_max p) (output_min p) (error p)
     (prev_error p) v (derivative p) (dt p) (Kp p) (Ki p) (Kd p)
     (temperature p) (setpoint p).
Definition set_derivative v p :=
  mk (state p) (code p) (output p) (output_max p) (output_min p) (error p)
     (prev_error p) (integral p) v (dt p) (Kp p) (Ki p) (Kd p)
     (temperature p) (setpoint p).
Definition set_temperature v p :=
  mk (state p) (code p) (output p) (output_max p) (output_min p) (error p)
     (prev_error p) (integral p) (derivative p) (dt p) (Kp p) (Ki p) (Kd p)
     v (setpoint p).
Definition set_setpoint v p :=
  mk (state p) (code p) (output p) (output_max p) (output_min p) (error p)
     (prev_error p) (integral p) (derivative p) (dt p) (Kp p) (Ki p) (Kd p)
     (temperature p) v.
End PID.

(** [struct TemperatureSensor] *)
Module Sensor.
Record t : Set := mk {
  state : sensor_state;
  code : sensor_code;
  samples_per_reading : Z;
  samples : Z;
  retries : Z;
  temperature : Q;
  previous_temp : Q;
  accumulator : Q;
  variance : Q;
  disconnect_temperature : Q;
  no_power_temperature : Q
}.
Definition set_state v s :=
  mk v (code s) (samples_per_reading s) (samples s) (retries s)
     (temperature s) (previous_temp s) (accumulator s) (variance s)
     (disconnect_temperature s) (no_power_temperature s).
Definition set_code v s :=
  mk (state s) v (samples_per_reading s) (samples s) (retries s)
     (temperature s) (previous_temp s) (accumulator s) (variance s)
     (disconnect_temperature s) (no_power_temperature s).
Definition set_samples v s :=
  mk (state s) (code s) (samples_per_reading s) v (retries s)
     (temperature s) (previous_temp s) (accumulator s) (variance s)
     (disconnect_temperature s) (no_power_temperature s).
Definition set_temperature v s :=
  mk (state s) (code s) (samples_per_reading s) (samples s) (retries s)
     v (previous_temp s) (accumulator s) (variance s)
     (disconnect_temperature s) (no_power_temperature s).
Definition set_previous_temp v s :=
  mk (state s) (code s) (samples_per_reading s) (samples s) (retries s)
     (temperature s) v (accumulator s) (variance s)
     (disconnect_temperature s) (no_power_temperature s).
Definition set_accumulator v s :=
  mk (state s) (code s) (samples_per_reading s) (samples s) (retries s)
     (temperature s) (previous_temp s) v (variance s)
     (disconnect_temperature s) (no_power_temperature s).
End Sensor.

(** The globals of the program, the two timer-2 compare registers and the
    number of ADC conversions made so far. *)
Record World : Set := mkWorld {
  device : Device.t;
  heater : Heater.t;
  pid : PID.t;
  sensor : Sensor.t;
  OCR2A : Z;
  OCR2B : Z;
  adc_conversions : nat
}.

Definition set_device v w :=
  mkWorld v (heater w) (pid w) (sensor w) (OCR2A w) (OCR2B w) (adc_conversions w).
Definition set_heater v w :=
  mkWorld (device w) v (pid w) (sensor w) (OCR2A w) (OCR2B w) (adc_conversions w).
Definition set_pid v w :=
  mkWorld (device w) (heater w) v (sensor w) (OCR2A w) (OCR2B w) (adc_conversions w).
Definition set_sensor v w :=
  mkWorld (device w) (heater w) (pid w) v (OCR2A w) (OCR2B w) (adc_conversions w).
Definition set_OCR2A v w :=
  mkWorld (device w) (heater w) (pid w) (sensor w) v (OCR2B w) (adc_conversions w).
Definition set_OCR2B v w :=
  mkWorld (device w) (heater w) (pid w) (sensor w) (OCR2A w) v (adc_conversions w).
Definition set_adc_conversions v w :=
  mkWorld (device w) (heater w) (pid w) (sensor w) (OCR2A w) (OCR2B w) v.

(** Field updates in the style of [heater.state = v]. *)
Definition upd_device (f : Device.t -> Device.t) w := set_device (f (device w)) w.
Definition upd_heater (f : Heater.t -> Heater.t) w := set_heater (f (heater w)) w.
Definition upd_pid (f : PID.t -> PID.t) w := set_pid (f (pid w)) w.
Definition upd_sensor (f : Sensor.t -> Sensor.t) w := set_sensor (f (sensor w)) w.

(** ** The functions of tinyg_tc.c *)

Section TemperatureController.
Variable cfg : tc_config.
(** The raw value the converter holds at its n-th conversion. *)
Variable adc : nat -> Z.

(** *** Conversions to [uint8_t] *)

Definition uint8_of_double (q : Q) : Z :=
  let t := Qtrunc q in
  if ((0 <=? t) && (t <? 256))%Z then t
  else uint8 (uint8_of_out_of_range cfg).

Definition uint8_of_period (p : period) : Z :=
  match p with
  | Period q => uint8_of_double q
  | PeriodInf | PeriodNaN => uint8 (uint8_of_out_of_range cfg)
  end.

(** [p < x] and [p >= x] for the value of [device.pwm_freq]. *)
Definition period_ltb (p : period) (x : Q) : bool :=
  match p with
  | Period q => Qltb q x
  | PeriodInf | PeriodNaN => false
  end.

Definition period_geb (p : period) (x : Q) : bool :=
  match p with
  | Period q => Qleb x q
  | PeriodInf => true
  | PeriodNaN => false
  end.

(** *** PWM *)

(** [pwm_init]: the mode registers [TCCR2A], [TCCR2B] and [TIMSK1] are
    written once with constants and never read; they are left out. *)
Definition pwm_init (w : World) : World :=
  let w := set_OCR2A 0%Z w in
  let w := set_OCR2B 0%Z w in
  upd_device (Device.set_pwm_freq (Period 0)) w.

(** [device.pwm_freq = F_CPU / PWM_PRESCALE / freq]: the first division
    is between integer constants, the second is a [double] division. *)
Definition pwm_period (freq : Q) : period :=
  let clk := (Zpos (F_CPU cfg) / Zpos (PWM_PRESCALE cfg))%Z in
  if Qeq_bool freq 0 then
    (if (clk =? 0)%Z then PeriodNaN else PeriodInf)
  else Period (inject_Z clk / freq).

Definition pwm_set_freq (freq : Q) (w : World) : stat_t * World :=
  let w := upd_device (Device.set_pwm_freq (pwm_period freq)) w in
  let p := Device.pwm_freq (device w) in
  let w :=
    if period_ltb p (inject_Z (PWM_MIN_RES cfg)) then
      set_OCR2A (uint8 (PWM_MIN_RES cfg)) w
    else if period_geb p (inject_Z (PWM_MAX_RES cfg)) then
      set_OCR2A (uint8 (PWM_MAX_RES cfg)) w
    else
      set_OCR2A (uint8_of_period p) w in
  (SC_OK, w).

Definition pwm_set_duty (duty : Q) (w : World) : stat_t * World :=
  let w :=
    if Qleb duty 0 then
      set_OCR2B 255%Z w
    else if Qgtb duty 100 then
      set_OCR2B 0%Z w
    else
      set_OCR2B
        (uint8_of_double (inject_Z (OCR2A w) * (1 - duty / 100))) w in
  let w := set_OCR2A (uint8_of_period (Device.pwm_freq (device w))) w in
  (SC_OK, w).

Definition pwm_on (freq duty : Q) (w : World) : World :=
  let w := pwm_init w in
  let w := snd (pwm_set_freq freq w) in
  snd (pwm_set_duty duty w).

Definition pwm_off (w : World) : World := pwm_on 0 0 w.

(** *** ADC *)

(** [adc_read]: one conversion.  The channel only selects the
    multiplexer input; the wait loop of the source has a constant false
    condition and never iterates. *)
Definition adc_read (channel : Z) (w : World) : Z * World :=
  (uint16 (adc (adc_conversions w)),
   set_adc_conversions (S (adc_conversions w)) w).

(** [#define SAMPLE(a) (((double)adc_read(a) * SENSOR_SLOPE) + SENSOR_OFFSET)] *)
Definition SAMPLE (a : Z) (w : World) : Q * World :=
  let (raw, w) := adc_read a w in
  (inject_Z raw * SENSOR_SLOPE cfg + SENSOR_OFFSET cfg, w).

(** *** Temperature sensor *)

Definition sensor_init (w : World) : World :=
  set_sensor
    (Sensor.mk SENSOR_HAS_NO_DATA SENSOR_IDLE
       (uint8 (SENSOR_SAMPLES_PER_READING cfg))
       0
       (uint8 (SENSOR_RETRIES cfg))
       (ABSOLUTE_ZERO cfg)
       0
       0
       (SENSOR_VARIANCE_RANGE cfg)
       (SENSOR_DISCONNECTED_TEMPERATURE cfg)
       (SENSOR_NO_POWER_TEMPERATURE cfg)) w.

(** "no action actually occurs" *)
Definition sensor_on (w : World) : World := w.

Definition sensor_off (w : World) : World :=
  upd_sensor (Sensor.set_state SENSOR_OFF) w.

Definition sensor_get_temperature (w : World) : Q :=
  if sensor_state_eqb (Sensor.state (sensor w)) SENSOR_HAS_DATA
  then Sensor.temperature (sensor w)
  else SURFACE_OF_THE_SUN cfg.

Definition sensor_get_state (w : World) : sensor_state :=
  Sensor.state (sensor w).

Definition sensor_get_code (w : World) : sensor_code :=
  Sensor.code (sensor w).

Definition sensor_start_temperature_reading (w : World) : World :=
  upd_sensor (Sensor.set_samples 0%Z) w.

(** The retry loop of [_sensor_sample]:
    [for (uint8_t i = sensor.retries; i > 0; --i)], with [sample] the
    sample under test. *)
Fixpoint sensor_sample_loop (i : nat) (sample : Q) (w : World) : Q * World :=
  match i with
  | O => (HOTTER_THAN_THE_SUN cfg, w)
  | S i' =>
      if Qltb (fabs (sample - Sensor.previous_temp (sensor w)))
              (Sensor.variance (sensor w))
      then (sample, upd_sensor (Sensor.set_previous_temp sample) w)
      else
        let (sample', w') := SAMPLE (ADC_CHANNEL cfg) w in
        sensor_sample_loop i' sample' w'
  end.

Definition _sensor_sample (adc_channel : Z) (new_period : bool) (w : World)
  : Q * World :=
  let (sample, w) := SAMPLE adc_channel w in
  if new_period then
    (sample, upd_sensor (Sensor.set_previous_temp sample) w)
  else
    sensor_sample_loop (Z.to_nat (Sensor.retries (sensor w))) sample w.

Definition sensor_callback (w : World) : World :=
  if sensor_state_eqb (Sensor.state (sensor w)) SENSOR_OFF
     || sensor_state_eqb (Sensor.state (sensor w)) SENSOR_SHUTDOWN
  then w
  else if sensor_code_eqb (Sensor.code (sensor w)) SENSOR_READING_COMPLETE
  then w
  else
    let new_period := (Sensor.samples (sensor w) =? 0)%Z in
    let w :=
      if new_period then
        upd_sensor (fun s =>
          Sensor.set_code SENSOR_IS_READING (Sensor.set_accumulator 0 s)) w
      else w in
    let (temperature, w) := _sensor_sample (ADC_CHANNEL cfg) new_period w in
    if Qgtb temperature (SURFACE_OF_THE_SUN cfg) then
      upd_sensor (fun s =>
        Sensor.set_state SENSOR_SHUTDOWN
          (Sensor.set_code SENSOR_READING_FAILED_BAD_READINGS s)) w
    else
      let w :=
        upd_sensor (fun s =>
          Sensor.set_accumulator (Sensor.accumulator s + temperature) s) w in
      (* ++sensor.samples on an int8_t *)
      let w :=
        upd_sensor (fun s =>
          Sensor.set_samples (int8 (Sensor.samples s + 1)) s) w in
      if (Sensor.samples (sensor w)
            <? Sensor.samples_per_reading (sensor w))%Z
      then w
      else
        let w :=
          upd_sensor (fun s =>
            Sensor.set_temperature
              (Sensor.accumulator s / inject_Z (Sensor.samples s)) s) w in
        if Qgtb (Sensor.temperature (sensor w))
                (SENSOR_DISCONNECTED_TEMPERATURE cfg)
        then
          upd_sensor (fun s =>
            Sensor.set_state SENSOR_HAS_NO_DATA
              (Sensor.set_code SENSOR_READING_FAILED_DISCONNECTED s)) w
        else if Qltb (Sensor.temperature (sensor w))
                     (SENSOR_NO_POWER_TEMPERATURE cfg)
        then
          upd_sensor (fun s =>
            Sensor.set_state SENSOR_HAS_NO_DATA
              (Sensor.set_code SENSOR_READING_FAILED_NO_POWER s)) w
        else
          upd_sensor (fun s =>
            Sensor.set_state SENSOR_HAS_DATA
              (Sensor.set_code SENSOR_READING_COMPLETE s)) w.

(** *** PID *)

Definition pid_init (w : World) : World :=
  set_pid
    (PID.mk PID_ON PID_CODE_ZERO
       0 (PID_MAX_OUTPUT cfg) (PID_MIN_OUTPUT cfg)
       0 0 0 0
       (PID_DT cfg) (PID_Kp cfg) (PID_Ki cfg) (PID_Kd cfg)
       0 0) w.

Definition pid_reset (w : World) : World :=
  let w := upd_pid (PID.set_integral 0) w in
  upd_pid (PID.set_prev_error 0) w.

Definition pid_calculate (setpoint temperature : Q) (w : World) : Q * World :=
  if pid_state_eqb (PID.state (pid w)) PID_OFF then (0, w)
  else
    let w := upd_pid (PID.set_setpoint setpoint) w in
    let w := upd_pid (PID.set_temperature temperature) w in
    let w := upd_pid (PID.set_error (setpoint - temperature)) w in
    let w :=
      if Qgtb (fabs (PID.error (pid w))) (PID_EPSILON cfg) then
        upd_pid (fun p =>
          PID.set_integral (PID.integral p + PID.error p * PID.dt p) p) w
      else w in
    let w :=
      upd_pid (fun p =>
        PID.set_derivative ((PID.error p - PID.prev_error p) / PID.dt p) p) w in
    let w :=
      upd_pid (fun p =>
        PID.set_output
          (PID.Kp p * PID.error p + PID.Ki p * PID.integral p
           + PID.Kd p * PID.derivative p) p) w in
    let w :=
      if Qgtb (PID.output (pid w)) (PID.output_max (pid w)) then
        upd_pid (fun p => PID.set_output (PID.output_max p) p) w
      else if Qltb (PID.output (pid w)) (PID.output_min (pid w)) then
        upd_pid (fun p => PID.set_output (PID.output_min p) p) w
      else w in
    let w := upd_pid (fun p => PID.set_prev_error (PID.error p) p) w in
    (PID.output (pid w), w).

(** *** Heater *)

Definition heater_init (w : World) : World :=
  let w :=
    set_heater
      (Heater.mk HEATER_OFF HEATER_OK 0 0 0
         (HEATER_AMBIENT_TIMEOUT cfg)
         (HEATER_REGULATION_TIMEOUT cfg)
         (HEATER_AMBIENT_TEMPERATURE cfg)
         (HEATER_OVERHEAT_TEMPERATURE cfg)) w in
  let w := sensor_init w in
  pid_init w.

Definition heater_on (setpoint : Q) (w : World) : World :=
  if heater_state_eqb (Heater.state (heater w)) HEATER_HEATING
     || heater_state_eqb (Heater.state (heater w)) HEATER_AT_TARGET
  then w
  else
    let w := sensor_on w in
    let w := pid_reset w in
    let w := pwm_on (PWM_FREQUENCY cfg) 0 w in
    let w := upd_heater (Heater.set_setpoint setpoint) w in
    upd_heater (Heater.set_state HEATER_HEATING) w.

Definition heater_off (state : heater_state) (code : heater_code)
  (w : World) : World :=
  let w := pwm_off w in
  let w := sensor_off w in
  let w := upd_heater (Heater.set_state state) w in
  upd_heater (Heater.set_code code) w.

Definition heater_callback (w : World) : World :=
  if heater_state_eqb (Heater.state (heater w)) HEATER_OFF
     || heater_state_eqb (Heater.state (heater w)) HEATER_SHUTDOWN
  then w
  else
    let w := sensor_start_temperature_reading w in
    if negb (sensor_state_eqb (sensor_get_state w) SENSOR_HAS_DATA) then w
    else
      let w := upd_heater (Heater.set_temperature (sensor_get_temperature w)) w in
      let (duty_cycle, w) :=
        pid_calculate (Heater.setpoint (heater w))
                      (Heater.temperature (heater w)) w in
      let w := snd (pwm_set_duty duty_cycle w) in
      if heater_state_eqb (Heater.state (heater w)) HEATER_HEATING then
        let w :=
          upd_heater (fun h =>
            Heater.set_regulation_timer
              (Heater.regulation_timer h + HEATER_TICK_SECONDS cfg) h) w in
        if Qltb (Heater.temperature (heater w))
                (Heater.ambient_temperature (heater w))
           && Qgtb (Heater.regulation_timer (heater w))
                   (Heater.ambient_timeout (heater w))
        then heater_off HEATER_SHUTDOWN HEATER_AMBIENT_TIMED_OUT w
        else if Qltb (Heater.temperature (heater w))
                     (Heater.setpoint (heater w))
                && Qgtb (Heater.regulation_timer (heater w))
                        (Heater.regulation_timeout (heater w))
        then heater_off HEATER_SHUTDOWN HEATER_REGULATION_TIMED_OUT w
        else w
      else w.

(** *** Tick timer *)

Definition tick_init (w : World) : World :=
  let w := upd_device (Device.set_tick_100ms_count 10%Z) w in
  upd_device (Device.set_tick_1sec_count 10%Z) w.

(** [ISR(TIMER0_OVF_vect)] *)
Definition ISR_TIMER0_OVF (w : World) : World :=
  upd_device (Device.set_tick_flag 1%Z) w.

Definition tick_10ms (w : World) : World := sensor_callback w.
Definition tick_100ms (w : World) : World := heater_callback w.
Definition tick_1sec (w : World) : World := w.

Definition tick_callback (w : World) : stat_t * World :=
  if (Device.tick_flag (device w) =? 0)%Z then (SC_NOOP, w)
  else
    let w := upd_device (Device.set_tick_flag 0%Z) w in
    let w := tick_10ms w in
    let w :=
      upd_device (fun d =>
        Device.set_tick_100ms_count (uint8 (Device.tick_100ms_count d - 1)) d) w in
    if negb (Device.tick_100ms_count (device w) =? 0)%Z then (SC_OK, w)
    else
      let w := upd_device (Device.set_tick_100ms_count 10%Z) w in
      let w := tick_100ms w in
      let w :=
        upd_device (fun d =>
          Device.set_tick_1sec_count (uint8 (Device.tick_1sec_count d - 1)) d) w in
      if negb (Device.tick_1sec_count (device w) =? 0)%Z then (SC_OK, w)
      else
        let w := upd_device (Device.set_tick_1sec_count 10%Z) w in
        let w := tick_1sec w in
        (SC_OK, w).

(** *** The dispatch loop of the device *)

(** [kinen_callback] belongs to the Kinen driver, which is not among the
    sources. *)
Variable kinen_callback : callback World.

Definition controller_list : list (callback World) :=
  [ kinen_callback; tick_callback ].

Definition _controller (w : World) : World := dispatch controller_list w.

(** [device_init], as far as the modelled state goes: [pwm_init] clears
    [device.pwm_freq] and the compare registers, [tick_init] loads the
    down counters. *)
Definition device_init (w : World) : World :=
  let w := tick_init w in
  pwm_init w.

(** One base interval: the timer interrupt fires, then the tick handler
    is polled. *)
Definition tick (w : World) : World := snd (tick_callback (ISR_TIMER0_OVF w)).

Fixpoint ticks (n : nat) (w : World) : World :=
  match n with
  | O => w
  | S n' => ticks n' (tick w)
  end.

(** *** Sequences of heater operations *)

Inductive heater_op : Set :=
| Op_heater_init
| Op_heater_on (setpoint : Q)
| Op_heater_off (state : heater_state) (code : heater_code)
| Op_heater_callback
| Op_tick.

Definition run_op (op : heater_op) (w : World) : World :=
  match op with
  | Op_heater_init => heater_init w
  | Op_heater_on sp => heater_on sp w
  | Op_heater_off st c => heater_off st c w
  | Op_heater_callback => heater_callback w
  | Op_tick => tick w
  end.

Fixpoint run_ops (ops : list heater_op) (w : World) : World :=
  match ops with
  | [] => w
  | op :: rest => run_ops rest (run_op op w)
  end.
End TemperatureController.

(** ** Definitions used to state the properties *)

(** *** Dispatch loop: three callbacks, the middle one blocking while the
    flag of the state is set *)

Definition poll_top : callback bool := fun blocked => (STAT_OK, blocked).
Definition poll_middle : callback bool :=
  fun blocked => if blocked then (STAT_EAGAIN, blocked) else (STAT_NOOP, blocked).
Definition poll_bottom : callback bool := fun blocked => (STAT_OK, blocked).

(** *** PID: the control law in the words of the specification *)

(** Hard clamp of [x] to the interval [[lo, hi]]. *)
Definition saturate (lo hi x : Q) : Q := Qmax lo (Qmin hi x).

(** The integral after one call: it accumulates [error * dt] only when
    [|error|] exceeds epsilon. *)
Definition gated_integral (cfg : tc_config) (p : PID.t) (error : Q) : Q :=
  if Qgtb (Qabs error) (PID_EPSILON cfg)
  then PID.integral p + error * PID.dt p
  else PID.integral p.

(** [Kp*error + Ki*integral + Kd*derivative] *)
Definition pid_law (cfg : tc_config) (p : PID.t) (setpoint measured : Q) : Q :=
  let error := setpoint - measured in
  PID.Kp p * error
  + PID.Ki p * gated_integral cfg p error
  + PID.Kd p * ((error - PID.prev_error p) / PID.dt p).

(** [n] successive calls of [pid_calculate] with the same arguments. *)
Fixpoint pid_calculate_n (cfg : tc_config) (n : nat) (setpoint measured : Q)
  (w : World) : World :=
  match n with
  | O => w
  | S n' =>
      pid_calculate_n cfg n' setpoint measured
        (snd (pid_calculate cfg setpoint measured w))
  end.

(** *** PWM: the on time of the output

    Timer 2 runs in fast PWM mode with TOP = [OCR2A] and the output
    inverted ([TCCR2A = PWM_INVERTED]): the pin goes high at the compare
    match with [OCR2B] and low again when the counter wraps, so it is high
    for the counts between [OCR2B] and [OCR2A], and never when [OCR2B] is
    above [OCR2A]. *)
Definition on_time (w : World) : Z := Z.max 0 (OCR2A w - OCR2B w).

(** Output low for the whole period. *)
Definition fully_off (w : World) : Prop := OCR2B w = 255%Z /\ on_time w = 0%Z.

(** Output high from the start of the period to TOP. *)
Definition fully_on (w : World) : Prop := OCR2B w = 0%Z /\ on_time w = OCR2A w.

(** *** Sensor: successive polls, samples and their mean *)

Fixpoint sensor_callback_n (cfg : tc_config) (adc : nat -> Z) (n : nat)
  (w : World) : World :=
  match n with
  | O => w
  | S n' => sensor_callback_n cfg adc n' (sensor_callback cfg adc w)
  end.

(** The calibrated value of the k-th conversion. *)
Definition sample_at (cfg : tc_config) (adc : nat -> Z) (k : nat) : Q :=
  inject_Z (uint16 (adc k)) * SENSOR_SLOPE cfg + SENSOR_OFFSET cfg.

(** Sum of the [n] samples from conversion [k] on, added to [acc] in the
    order the sensor takes them. *)
Fixpoint sum_samples (cfg : tc_config) (adc : nat -> Z) (k n : nat) (acc : Q) : Q :=
  match n with
  | O => acc
  | S n' => sum_samples cfg adc (S k) n' (acc + sample_at cfg adc k)
  end.

Definition mean_samples (cfg : tc_config) (adc : nat -> Z) (k n : nat) : Q :=
  sum_samples cfg adc k n 0 / inject_Z (Z.of_nat n).

(** *** Heater: operations that the properties single out *)

(** The operations that poll the heater or switch it off into
    [HEATER_SHUTDOWN]. *)
Definition keeps_shutdown (op : heater_op) : Prop :=
  match op with
  | Op_heater_callback | Op_tick => True
  | Op_heater_off HEATER_SHUTDOWN _ => True
  | _ => False
  end.

(** The heater operations as the program and the specification issue
    them: [heater_off] is called with [HEATER_SHUTDOWN] (the source, in
    [heater_callback]) or [HEATER_OFF] (the specification's
    [turn_off (Off, code)]), never with another state. *)
Definition issued (op : heater_op) : Prop :=
  match op with
  | Op_heater_off HEATER_OFF _ | Op_heater_off HEATER_SHUTDOWN _ => True
  | Op_heater_off _ _ => False
  | _ => True
  end.

(** The heater with its state changed to [HEATER_OFF], all else equal. *)
Definition as_if_off (w : World) : World :=
  upd_heater (Heater.set_state HEATER_OFF) w.

(** *** A configuration and runs of the device *)

(** Values for the constants of [tinyg_tc.h], in the ranges the comments
    of the source give (a PWM frequency between 500 Hz and 6000 Hz, at most
    ten samples per reading). *)
Definition example_config : tc_config :=
  {| HEATER_TICK_SECONDS := 1 # 10;
     HEATER_AMBIENT_TIMEOUT := 90;
     HEATER_REGULATION_TIMEOUT := 300;
     HEATER_AMBIENT_TEMPERATURE := 40;
     HEATER_OVERHEAT_TEMPERATURE := 300;
     PID_DT := 1 # 10;
     PID_EPSILON := 1 # 10;
     PID_MAX_OUTPUT := 100;
     PID_MIN_OUTPUT := 0;
     PID_Kp := 5;
     PID_Ki := 1 # 10;
     PID_Kd := 1 # 2;
     SENSOR_SAMPLES_PER_READING := 8;
     SENSOR_RETRIES := 3;
     SENSOR_VARIANCE_RANGE := 20;
     SENSOR_DISCONNECTED_TEMPERATURE := 400;
     SENSOR_NO_POWER_TEMPERATURE := -2;
     SENSOR_SLOPE := 1 # 2;
     SENSOR_OFFSET := -1;
     ABSOLUTE_ZERO := -27315 # 100;
     SURFACE_OF_THE_SUN := 5505;
     HOTTER_THAN_THE_SUN := 10000;
     ADC_CHANNEL := 0;
     F_CPU := 16000000;
     PWM_PRESCALE := 64;
     PWM_FREQUENCY := 1000;
     PWM_MIN_RES := 20;
     PWM_MAX_RES := 255;
     uint8_of_out_of_range := 0 |}.

(** The statics of the program before [main] runs: all zero. *)
Definition World_zero : World :=
  mkWorld
    (Device.mk 0 0 0 (Period 0))
    (Heater.mk HEATER_OFF HEATER_OK 0 0 0 0 0 0 0)
    (PID.mk PID_OFF PID_CODE_ZERO 0 0 0 0 0 0 0 0 0 0 0 0 0)
    (Sensor.mk SENSOR_OFF SENSOR_IDLE 0 0 0 0 0 0 0 0 0)
    0 0 0.

(** The initialisations of [main]: [device_init (); heater_init ();]. *)
Definition booted (cfg : tc_config) : World :=
  heater_init cfg (device_init World_zero).

(** A probe that reads a steady raw value of 300. *)
Definition adc_steady : nat -> Z := fun _ => 300%Z.

(** A probe whose first conversion reads 300 and every later one 900: the
    second sample of the reading is out of variance at every retry. *)
Definition adc_glitch : nat -> Z :=
  fun n => match n with O => 300%Z | S _ => 900%Z end.

(** A probe that reads 300 for the first eight conversions and 320 from
    then on. *)
Definition adc_step : nat -> Z :=
  fun n => if (n <? 8)%nat then 300%Z else 320%Z.

(** A PID with a non-zero integral and previous error, as left by earlier
    calls of [pid_calculate]. *)
Definition pid_used : PID.t :=
  PID.mk PID_ON PID_CODE_ZERO 50 100 0 10 10 7 0 (1 # 10) 5 (1 # 10) (1 # 2) 130 140.

(** The saturation filter as [pid_calculate] writes it: two comparisons on
    the raw output. *)
Definition saturation_filter (lo hi x : Q) : Q :=
  if Qgtb x hi then hi else if Qltb x lo then lo else x.

(** The globals with the PID of [pid_used]. *)
Definition world_pid_used : World := set_pid pid_used World_zero.

(** *** Frames: what a function of one module leaves alone *)

(** [w'] differs from [w] in the PWM hardware only: compare registers and
    [device]. *)
Definition same_but_pwm (w w' : World) : Prop :=
  heater w' = heater w /\ pid w' = pid w /\ sensor w' = sensor w /\
  adc_conversions w' = adc_conversions w.

(** [w'] differs from [w] in the sensor and the ADC only. *)
Definition same_but_sensor (w w' : World) : Prop :=
  heater w' = heater w /\ pid w' = pid w /\ device w' = device w /\
  OCR2A w' = OCR2A w /\ OCR2B w' = OCR2B w.

(** The guard of [heater_on]: the heater is heating or at target. *)
Definition heater_active (w : World) : bool :=
  heater_state_eqb (Heater.state (heater w)) HEATER_HEATING
  || heater_state_eqb (Heater.state (heater w)) HEATER_AT_TARGET.

(** The heater shut down by [heater_off] after it was switched on. *)
Definition world_shutdown : World :=
  heater_off example_config HEATER_SHUTDOWN HEATER_AMBIENT_TIMED_OUT
    (heater_on example_config 140 (booted example_config)).

(** The globals after [main] has switched the heater on. *)
Definition world_heating : World :=
  heater_on example_config 140 (booted example_config).

(** A heater that is off, with a PID that has been used. *)
Definition world_off_pid_used : World :=
  set_pid pid_used (booted example_config).

(** The PWM running at 1 kHz with a duty of 50 percent. *)
Definition world_pwm : World := pwm_on example_config 1000 50 World_zero.

(** The compare value that [pwm_set_duty] computes for a duty in
    (0, 100]: [OCR2A * (1 - (duty / 100))], before the conversion to
    [uint8_t]. *)
Definition scaled_compare (top : Z) (duty : Q) : Q :=
  inject_Z top * (1 - duty / 100).

(** *** Sensor: the outcome of a completed reading, in the words of the
    specification *)

(** Above the disconnect threshold the reading is a "disconnected" fault,
    below the no-power threshold a "no power" fault, both without data;
    otherwise the sensor has data. *)
Definition classify (cfg : tc_config) (mean : Q) : sensor_state * sensor_code :=
  if Qgtb mean (SENSOR_DISCONNECTED_TEMPERATURE cfg)
  then (SENSOR_HAS_NO_DATA, SENSOR_READING_FAILED_DISCONNECTED)
  else if Qltb mean (SENSOR_NO_POWER_TEMPERATURE cfg)
  then (SENSOR_HAS_NO_DATA, SENSOR_READING_FAILED_NO_POWER)
  else (SENSOR_HAS_DATA, SENSOR_READING_COMPLETE).

(** The sensor is neither off nor shut down. *)
Definition sensor_alive (w : World) : Prop :=
  Sensor.state (sensor w) <> SENSOR_OFF /\
  Sensor.state (sensor w) <> SENSOR_SHUTDOWN.

(** ** The PID regulator in floating-point arithmetic

    The saturation filter of [pid_calculate] is two comparisons, and what
    two comparisons let through depends on the part of the arithmetic of
    [double] that the rationals leave out: overflow to an infinity, and
    NaN, with which every comparison is false.  [IEEE] embeds the PID
    functions of the source a second time, over the IEEE 754 binary
    floating-point numbers [spec_float] of the standard library, whose
    operations round to nearest, ties to even.  The format is a parameter:
    precision [prec] and exponent bound [emax] are 24 and 128 for binary32
    (the [double] of avr-gcc, which compiles this firmware) and 53 and 1024
    for binary64 (the [double] of most other compilers). *)

Module IEEE.

(** [struct PIDstruct], with floating-point numbers for its [double]
    fields. *)
Module PID.
Record t : Set := mk {
  state : pid_state;
  code : pid_code;
  output : spec_float;
  output_max : spec_float;
  output_min : spec_float;
  error : spec_float;
  prev_error : spec_float;
  integral : spec_float;
  derivative : spec_float;
  dt : spec_float;
  Kp : spec_float;
  Ki : spec_float;
  Kd : spec_float;
  temperature : spec_float;
  setpoint : spec_float
}.
Definition set_output v p :=
  mk (state p) (code p) v (output_max p) (output_min p) (error p)
     (prev_error p) (integral p) (derivative p) (dt p) (Kp p) (Ki p) (Kd p)
     (temperature p) (setpoint p).
Definition set_error v p :=
  mk (state p) (code p) (output p) (output_max p) (output_min p) v
     (prev_error p) (integral p) (derivative p) (dt p) (Kp p) (Ki p) (Kd p)
     (temperature p) (setpoint p).
Definition set_prev_error v p :=
  mk (state p) (code p) (output p) (output_max p) (output_min p) (error p)
     v (integral p) (derivative p) (dt p) (Kp p) (Ki p) (Kd p)
     (temperature p) (setpoint p).
Definition set_integral v p :=
  mk (state p) (code p) (output p) (output_max p) (output_min p) (error p)
     (prev_error p) v (derivative p) (dt p) (Kp p) (Ki p) (Kd p)
     (temperature p) (setpoint p).
Definition set_derivative v p :=
  mk (state p) (code p) (output p) (output_max p) (output_min p) (error p)
     (prev_error p) (integral p) v (dt p) (Kp p) (Ki p) (Kd p)
     (temperature p) (setpoint p).
Definition set_temperature v p :=
  mk (state p) (code p) (output p) (output_max p) (output_min p) (error p)
     (prev_error p) (integral p) (derivative p) (dt p) (Kp p) (Ki p) (Kd p)
     v (setpoint p).
Definition set_setpoint v p :=
  mk (state p) (code p) (output p) (output_max p) (output_min p) (error p)
     (prev_error p) (integral p) (derivative p) (dt p) (Kp p) (Ki p) (Kd p)
     (temperature p) v.
End PID.

(** [x != x]: the number is a NaN. *)
Definition is_nan (x : spec_float) : bool :=
  match x with S754_nan => true | _ => false end.

(** The C comparisons [a > b] and [a < b]: false when either side is a
    NaN. *)
Definition fgt (a b : spec_float) : bool := SFltb b a.
Definition flt (a b : spec_float) : bool := SFltb a b.

(** [lo <= x && x <= hi]: the number lies in the interval. *)
Definition within (lo hi x : spec_float) : bool := SFleb lo x && SFleb x hi.

(** The saturation filter as [pid_calculate] writes it: two comparisons on
    the raw output. *)
Definition saturation_filter (lo hi x : spec_float) : spec_float :=
  if fgt x hi then hi else if flt x lo then lo else x.

Section Format.

Variables prec emax : Z.

Definition fadd : spec_float -> spec_float -> spec_float := SFadd prec emax.
Definition fsub : spec_float -> spec_float -> spec_float := SFsub prec emax.
Definition fmul : spec_float -> spec_float -> spec_float := SFmul prec emax.
Definition fdiv : spec_float -> spec_float -> spec_float := SFdiv prec emax.

(** The integer constant [z], rounded to the format. *)
Definition of_Z (z : Z) : spec_float := binary_normalize prec emax z 0 false.

(** The constant [q] of the configuration: the quotient of its numerator
    and denominator, rounded to the format (for [1 # 10] the number a
    compiler reads [0.1] as). *)
Definition of_Q (q : Q) : spec_float :=
  fdiv (of_Z (Qnum q)) (of_Z (Zpos (Qden q))).

Variable cfg : tc_config.

Definition pid_init : PID.t :=
  PID.mk PID_ON PID_CODE_ZERO
    (of_Z 0) (of_Q (PID_MAX_OUTPUT cfg)) (of_Q (PID_MIN_OUTPUT cfg))
    (of_Z 0) (of_Z 0) (of_Z 0) (of_Z 0)
    (of_Q (PID_DT cfg)) (of_Q (PID_Kp cfg)) (of_Q (PID_Ki cfg))
    (of_Q (PID_Kd cfg))
    (of_Z 0) (of_Z 0).

Definition pid_reset (pid : PID.t) : PID.t :=
  let pid := PID.set_integral (of_Z 0) pid in
  PID.set_prev_error (of_Z 0) pid.

Definition pid_calculate (setpoint temperature : spec_float) (pid : PID.t)
  : spec_float * PID.t :=
  if pid_state_eqb (PID.state pid) PID_OFF then (of_Z 0, pid)
  else
    let pid := PID.set_setpoint setpoint pid in
    let pid := PID.set_temperature temperature pid in
    let pid := PID.set_error (fsub setpoint temperature) pid in
    let pid :=
      if fgt (SFabs (PID.error pid)) (of_Q (PID_EPSILON cfg)) then
        PID.set_integral
          (fadd (PID.integral pid) (fmul (PID.error pid) (PID.dt pid))) pid
      else pid in
    let pid :=
      PID.set_derivative
        (fdiv (fsub (PID.error pid) (PID.prev_error pid)) (PID.dt pid)) pid in
    let pid :=
      PID.set_output
        (fadd
           (fadd (fmul (PID.Kp pid) (PID.error pid))
                 (fmul (PID.Ki pid) (PID.integral pid)))
           (fmul (PID.Kd pid) (PID.derivative pid))) pid in
    let pid :=
      if fgt (PID.output pid) (PID.output_max pid) then
        PID.set_output (PID.output_max pid) pid
      else if flt (PID.output pid) (PID.output_min pid) then
        PID.set_output (PID.output_min pid) pid
      else pid in
    let pid := PID.set_prev_error (PID.error pid) pid in
    (PID.output pid, pid).

(** The integral after one call: it accumulates [error * dt] only when
    [|error|] exceeds epsilon. *)
Definition gated_integral (p : PID.t) (error : spec_float) : spec_float :=
  if fgt (SFabs error) (of_Q (PID_EPSILON cfg))
  then fadd (PID.integral p) (fmul error (PID.dt p))
  else PID.integral p.

(** [Kp*error + Ki*integral + Kd*derivative] *)
Definition pid_law (p : PID.t) (setpoint measured : spec_float) : spec_float :=
  let error := fsub setpoint measured in
  fadd
    (fadd (fmul (PID.Kp p) error)
          (fmul (PID.Ki p) (gated_integral p error)))
    (fmul (PID.Kd p) (fdiv (fsub error (PID.prev_error p)) (PID.dt p))).

(** [pid_init (); pid_calculate (big, -big);]: the PID struct after a
    call whose error, [big - (-big)], overflows the format. *)
Definition overflowed (big : Z) : PID.t :=
  snd (pid_calculate (of_Z big) (SFopp (of_Z big)) pid_init).

End Format.

End IEEE.

(** ** Definitions for the further properties of tinyg_tc.c *)

(** [w'] has the tick flag and the two down counters of [w]. *)
Definition same_ticks (w w' : World) : Prop :=
  Device.tick_flag (device w') = Device.tick_flag (device w) /\
  Device.tick_100ms_count (device w') = Device.tick_100ms_count (device w) /\
  Device.tick_1sec_count (device w') = Device.tick_1sec_count (device w).

(** The globals after [main] has switched the heater on for 200 degrees
    and the first reading of a steady probe (149 degrees) has completed. *)
Definition world_reading_149 : World :=
  sensor_callback_n example_config adc_steady 8
    (heater_on example_config 200 (booted example_config)).

(** A probe that reads a steady raw value of 42 (20 degrees). *)
Definition adc_cold : nat -> Z := fun _ => 42%Z.

(** The heater switched on for 140 degrees, the first reading completed at
    20 degrees, and the regulation timer at the ambient timeout. *)
Definition world_cold_late : World :=
  upd_heater (Heater.set_regulation_timer 90)
    (sensor_callback_n example_config adc_cold 8 world_heating).

(** The heater switched on for 200 degrees, the first reading completed at
    149 degrees, and the regulation timer at the regulation timeout. *)
Definition world_slow_late : World :=
  upd_heater (Heater.set_regulation_timer 300) world_reading_149.


(** * Properties *)

(** ** Comparisons and enumerations *)

Lemma Qltb_lt (a b : Q) : Qltb a b = true <-> a < b.
Proof.
  unfold Qltb. rewrite negb_true_iff.
  destruct (Qle_bool b a) eqn:E.
  - apply Qle_bool_iff in E. split; [discriminate | intro H].
    exfalso. apply (Qlt_not_le _ _ H E).
  - split; [intros _ | reflexivity].
    apply Qnot_le_lt. intro H. apply Qle_bool_iff in H. congruence.
Qed.

Lemma Qltb_ge (a b : Q) : Qltb a b = false <-> b <= a.
Proof.
  unfold Qltb. rewrite negb_false_iff. apply Qle_bool_iff.
Qed.

Lemma Qgtb_gt (a b : Q) : Qgtb a b = true <-> b < a.
Proof. apply Qltb_lt. Qed.

Lemma Qgtb_le (a b : Q) : Qgtb a b = false <-> a <= b.
Proof. apply Qltb_ge. Qed.

Lemma Qleb_le (a b : Q) : Qleb a b = true <-> a <= b.
Proof. apply Qle_bool_iff. Qed.

Lemma Qleb_gt (a b : Q) : Qleb a b = false <-> b < a.
Proof.
  unfold Qleb. split; intro H.
  - apply Qnot_le_lt. intro L. apply Qle_bool_iff in L. congruence.
  - destruct (Qle_bool a b) eqn:E; [| reflexivity].
    apply Qle_bool_iff in E. exfalso. apply (Qlt_not_le _ _ H E).
Qed.

Lemma is_eq_true (A : Type) (dec : forall a b : A, {a = b} + {a <> b}) a b :
  is_eq dec a b = true <-> a = b.
Proof. unfold is_eq. destruct (dec a b); split; congruence. Qed.

Lemma is_eq_false (A : Type) (dec : forall a b : A, {a = b} + {a <> b}) a b :
  is_eq dec a b = false <-> a <> b.
Proof. unfold is_eq. destruct (dec a b); split; congruence. Qed.

Lemma stat_eqb_eagain (r : stat_t) :
  stat_eqb r STAT_EAGAIN = true <-> r = STAT_EAGAIN.
Proof. apply is_eq_true. Qed.

Lemma stat_eqb_not_eagain (r : stat_t) :
  stat_eqb r STAT_EAGAIN = false <-> r <> STAT_EAGAIN.
Proof. apply is_eq_false. Qed.

(** ** The dispatch loop *)

Section DispatchFacts.
Variable St : Type.
Implicit Types (f : callback St) (fs pre post : list (callback St)).

Lemma dispatch_cons f fs (s : St) :
  dispatch (f :: fs) s =
  if stat_eqb (fst (f s)) STAT_EAGAIN then snd (f s)
  else dispatch fs (snd (f s)).
Proof. simpl. destruct (f s). reflexivity. Qed.

(** The log of an instrumented pass started at position [i] with log
    [l] is [l] followed by the invoked positions shifted by [i], and the
    instrumentation does not change the state the pass leaves. *)
Lemma run_logged_shift fs : forall (i : nat) (l : list nat) (s : St),
  run_logged i fs (l, s) = (l ++ map (Nat.add i) (invoked fs s), dispatch fs s).
Proof.
  unfold invoked, run_logged.
  induction fs as [| f fs IH]; intros i l s; simpl.
  - rewrite app_nil_r. reflexivity.
  - unfold logged. simpl. destruct (f s) as [r s'].
    destruct (stat_eqb r STAT_EAGAIN); simpl.
    + rewrite Nat.add_0_r. reflexivity.
    + rewrite (IH (S i) (l ++ [i]) s'), (IH 1%nat [0%nat] s'). simpl.
      rewrite Nat.add_0_r, map_map, <- app_assoc. simpl.
      do 3 f_equal. apply map_ext. intro a. lia.
Qed.

Lemma invoked_cons f fs (s : St) :
  invoked (f :: fs) s =
  if stat_eqb (fst (f s)) STAT_EAGAIN then [0%nat]
  else 0%nat :: map S (invoked fs (snd (f s))).
Proof.
  unfold invoked at 1. unfold run_logged. simpl.
  unfold logged at 1. simpl. destruct (f s) as [r s']. simpl.
  destruct (stat_eqb r STAT_EAGAIN); [reflexivity |].
  change (dispatch (instrument_from 1 fs) ([0%nat], s'))
    with (run_logged 1 fs ([0%nat], s')).
  rewrite run_logged_shift. reflexivity.
Qed.

(** A prefix that falls through hands its state to the rest of the
    list, having invoked all of its own callbacks in order. *)
Lemma falls_through_prefix pre (s s1 : St) :
  falls_through pre s s1 ->
  forall rest,
    dispatch (pre ++ rest) s = dispatch rest s1 /\
    invoked (pre ++ rest) s =
      seq 0 (length pre) ++ map (Nat.add (length pre)) (invoked rest s1).
Proof.
  induction 1 as [s | f fs s s'' Hf _ IH]; intro rest.
  - simpl. split; [reflexivity |].
    rewrite <- (map_id (invoked rest s)) at 1. apply map_ext. reflexivity.
  - destruct (IH rest) as [IHd IHi].
    assert (E : stat_eqb (fst (f s)) STAT_EAGAIN = false).
    { apply stat_eqb_not_eagain. exact Hf. }
    split.
    + rewrite <- app_comm_cons, dispatch_cons, E. exact IHd.
    + rewrite <- app_comm_cons, invoked_cons, E.
      transitivity
        (0%nat :: map S (seq 0 (length fs)
                         ++ map (Nat.add (length fs)) (invoked rest s''))).
      { do 2 f_equal. exact IHi. }
      rewrite map_app, seq_shift, map_map. reflexivity.
Qed.

Lemma falls_through_all fs (s s' : St) :
  falls_through fs s s' ->
  dispatch fs s = s' /\ invoked fs s = seq 0 (length fs).
Proof.
  intro H. destruct (falls_through_prefix H []) as [Hd Hi].
  rewrite app_nil_r in Hd, Hi. simpl in Hd, Hi.
  rewrite app_nil_r in Hi. split; assumption.
Qed.
End DispatchFacts.

(** C1.  One pass of the dispatch loop over any ordered list of callbacks
    [pre ++ f :: post], in which the callbacks of [pre] have not returned
    [STAT_EAGAIN]: if [f] returns [STAT_EAGAIN] the pass ends with the state
    [f] leaves and has invoked exactly the callbacks up to [f], none of
    [post]; if [f] returns any other status the pass goes on with [post]
    from the state [f] leaves.  And any pass (in particular a later one) in
    which no callback returns [STAT_EAGAIN] invokes every callback of the
    list, in order. *)
Theorem dispatch_short_circuits_on_eagain :
  forall (St : Type) (pre post : list (callback St)) (f : callback St)
         (s s1 : St),
    falls_through pre s s1 ->
    (fst (f s1) = STAT_EAGAIN ->
       dispatch (pre ++ f :: post) s = snd (f s1) /\
       invoked (pre ++ f :: post) s = seq 0 (S (length pre)))
    /\
    (fst (f s1) <> STAT_EAGAIN ->
       dispatch (pre ++ f :: post) s = dispatch post (snd (f s1)) /\
       invoked (pre ++ f :: post) s =
         seq 0 (S (length pre))
         ++ map (Nat.add (S (length pre))) (invoked post (snd (f s1))))
    /\
    (forall s0 s' : St,
       falls_through (pre ++ f :: post) s0 s' ->
       dispatch (pre ++ f :: post) s0 = s' /\
       invoked (pre ++ f :: post) s0 = seq 0 (length (pre ++ f :: post))).
Proof.
  intros St pre post f s s1 Hpre.
  destruct (falls_through_prefix Hpre (f :: post)) as [Hd Hi].
  split; [| split].
  - intro H. apply stat_eqb_eagain in H.
    rewrite Hd, Hi, dispatch_cons, invoked_cons, H. split; [reflexivity |].
    simpl map. rewrite (seq_S (length pre) 0), Nat.add_0_r. reflexivity.
  - intro H. apply stat_eqb_not_eagain in H.
    rewrite Hd, Hi, dispatch_cons, invoked_cons, H. split; [reflexivity |].
    rewrite (seq_S (length pre) 0). simpl.
    rewrite <- app_assoc, Nat.add_0_r. simpl.
    rewrite map_map. do 2 f_equal. apply map_ext. intro a. lia.
  - intros s0 s' H. apply (falls_through_all H).
Qed.

(** The scheduler check of the specification: with the middle callback
    blocking, the pass invokes the first two callbacks only; once the
    block has cleared, a pass invokes all three. *)
Lemma dispatch_short_circuits_on_eagain_witness :
  invoked [poll_top; poll_middle; poll_bottom] true = [0; 1]%nat /\
  invoked [poll_top; poll_middle; poll_bottom] false = [0; 1; 2]%nat.
Proof.
  assert (Hpre : falls_through [poll_top] true true).
  { apply ft_cons; [discriminate | apply ft_nil]. }
  destruct (@dispatch_short_circuits_on_eagain bool
              [poll_top] [poll_bottom] poll_middle true true Hpre)
    as [Hblock [_ Hall]].
  split.
  - apply (Hblock eq_refl).
  - apply (Hall false false).
    repeat (apply ft_cons; [discriminate |]). apply ft_nil.
Defined.

(** The two dispatch loops of the sources are instances. *)
Lemma controller_blocked_by_kinen cfg adc (kinen_callback : callback World) w :
  fst (kinen_callback w) = SC_EAGAIN ->
  _controller cfg adc kinen_callback w = snd (kinen_callback w) /\
  invoked (controller_list cfg adc kinen_callback) w = [0%nat].
Proof.
  intro H. unfold _controller, controller_list.
  rewrite dispatch_cons, invoked_cons.
  apply stat_eqb_eagain in H. rewrite H. split; reflexivity.
Qed.

Lemma controller_runs_tick cfg adc (kinen_callback : callback World) w :
  fst (kinen_callback w) <> SC_EAGAIN ->
  _controller cfg adc kinen_callback w =
    snd (tick_callback cfg adc (snd (kinen_callback w))) /\
  invoked (controller_list cfg adc kinen_callback) w = [0; 1]%nat.
Proof.
  intro H. unfold _controller, controller_list.
  rewrite dispatch_cons, invoked_cons.
  apply stat_eqb_not_eagain in H. rewrite H.
  rewrite dispatch_cons, invoked_cons. simpl.
  destruct (stat_eqb (fst (tick_callback cfg adc (snd (kinen_callback w)))) STAT_EAGAIN);
    split; reflexivity.
Qed.

(** ** PID regulator *)

Ltac pid_simpl := cbn -[Qplus Qmult Qminus Qdiv Qabs Qgtb Qltb Qleb].

(** An enabled [pid_calculate] in closed form: the value returned and the
    PID struct it leaves. *)
Lemma pid_calculate_on cfg sp t w :
  PID.state (pid w) = PID_ON ->
  let p := pid w in
  let e := sp - t in
  let out :=
    saturation_filter (PID.output_min p) (PID.output_max p)
      (pid_law cfg p sp t) in
  pid_calculate cfg sp t w =
    (out,
     set_pid
       (PID.mk PID_ON (PID.code p) out (PID.output_max p) (PID.output_min p)
          e e (gated_integral cfg p e) ((e - PID.prev_error p) / PID.dt p)
          (PID.dt p) (PID.Kp p) (PID.Ki p) (PID.Kd p) t sp) w).
Proof.
  intro Hon. destruct w as [d h p s a b c]. destruct p. simpl in Hon. subst.
  unfold pid_calculate, pid_law, gated_integral, saturation_filter, fabs.
  pid_simpl.
  destruct (Qgtb (Qabs (sp - t)) (PID_EPSILON cfg)); pid_simpl;
    match goal with |- context [Qgtb ?a ?b] => destruct (Qgtb a b) end;
    pid_simpl; try reflexivity;
    match goal with |- context [Qltb ?a ?b] => destruct (Qltb a b) end;
    pid_simpl; reflexivity.
Qed.

Lemma pid_calculate_off cfg sp t w :
  PID.state (pid w) = PID_OFF -> pid_calculate cfg sp t w = (0, w).
Proof. intro H. unfold pid_calculate. rewrite H. reflexivity. Qed.

(** The two comparisons of the source compute the clamp to [[lo, hi]]. *)
Lemma saturation_filter_saturate lo hi x :
  lo <= hi -> saturation_filter lo hi x == saturate lo hi x.
Proof.
  intro H. unfold saturation_filter, saturate.
  destruct (Qgtb x hi) eqn:E1.
  - apply Qgtb_gt in E1.
    rewrite (Q.min_l hi x) by (apply Qlt_le_weak; exact E1).
    rewrite Q.max_r by exact H. reflexivity.
  - apply Qgtb_le in E1. rewrite (Q.min_r hi x) by exact E1.
    destruct (Qltb x lo) eqn:E2.
    + apply Qltb_lt in E2.
      rewrite Q.max_l by (apply Qlt_le_weak; exact E2). reflexivity.
    + apply Qltb_ge in E2. rewrite Q.max_r by exact E2. reflexivity.
Qed.

Lemma saturation_filter_bounds lo hi x :
  lo <= hi -> lo <= saturation_filter lo hi x <= hi.
Proof.
  intro H. unfold saturation_filter.
  destruct (Qgtb x hi) eqn:E1.
  - split; [exact H | apply Qle_refl].
  - apply Qgtb_le in E1. destruct (Qltb x lo) eqn:E2.
    + split; [apply Qle_refl | exact H].
    + apply Qltb_ge in E2. split; assumption.
Qed.

(** The regulator in exact arithmetic, where nothing rounds or overflows
    and there is no NaN.  [pid_calculate] returns 0 (and changes nothing)
    when the PID is off.  When it is on, and the interval
    [[output_min, output_max]] is not empty, it returns
    [Kp*error + Ki*integral + Kd*derivative] clamped to that interval, with
    [error = setpoint - temperature], the integral after this call's
    accumulation and [derivative = (error - prev_error) / dt]; for all
    rational setpoints and temperatures the value returned lies in the
    interval.  What becomes of the bound in floating-point arithmetic is
    the subject of [IEEE] below. *)
Theorem pid_calculate_saturates :
  forall (cfg : tc_config) (setpoint temperature : Q) (w : World),
    (PID.state (pid w) = PID_OFF ->
       fst (pid_calculate cfg setpoint temperature w) = 0 /\
       snd (pid_calculate cfg setpoint temperature w) = w)
    /\
    (PID.state (pid w) = PID_ON ->
     PID.output_min (pid w) <= PID.output_max (pid w) ->
       fst (pid_calculate cfg setpoint temperature w) ==
         saturate (PID.output_min (pid w)) (PID.output_max (pid w))
           (pid_law cfg (pid w) setpoint temperature) /\
       PID.output_min (pid w) <= fst (pid_calculate cfg setpoint temperature w) /\
       fst (pid_calculate cfg setpoint temperature w) <= PID.output_max (pid w)).
Proof.
  intros cfg sp t w. split.
  - intro Hoff. rewrite (pid_calculate_off cfg sp t w Hoff). split; reflexivity.
  - intros Hon Hmm. rewrite (pid_calculate_on cfg sp t w Hon). simpl fst.
    split; [apply saturation_filter_saturate; exact Hmm |].
    apply saturation_filter_bounds. exact Hmm.
Qed.

(** A PID with integral 7 and previous error 10, called with setpoint 140
    at 130 degrees and then with a setpoint far above: the output stays in
    [[0, 100]]. *)
Lemma pid_calculate_saturates_witness :
  (fst (pid_calculate example_config 140 130 world_pid_used) ==
     saturate 0 100 (pid_law example_config pid_used 140 130) /\
   0 <= fst (pid_calculate example_config 140 130 world_pid_used) /\
   fst (pid_calculate example_config 140 130 world_pid_used) <= 100)
  /\
  (fst (pid_calculate example_config 100000 0 world_pid_used) ==
     saturate 0 100 (pid_law example_config pid_used 100000 0) /\
   0 <= fst (pid_calculate example_config 100000 0 world_pid_used) /\
   fst (pid_calculate example_config 100000 0 world_pid_used) <= 100).
Proof.
  split.
  - apply (proj2 (pid_calculate_saturates example_config 140 130 world_pid_used)).
    + reflexivity.
    + vm_compute. discriminate.
  - apply (proj2 (pid_calculate_saturates example_config 100000 0 world_pid_used)).
    + reflexivity.
    + vm_compute. discriminate.
Defined.

(** ** The saturation filter in floating-point arithmetic *)

Lemma SFcompare_antisym x y :
  SFcompare y x = option_map CompOpp (SFcompare x y).
Proof.
  assert (HP : forall p q,
             Pos.compare_cont Eq q p = CompOpp (Pos.compare_cont Eq p q)).
  { intros p q. symmetry. apply (Pos.compare_cont_antisym p q Eq). }
  destruct x as [sx | sx | | sx mx ex], y as [sy | sy | | sy my ey];
    cbn [SFcompare option_map];
    try destruct sx; try destruct sy; try reflexivity;
    f_equal; rewrite (Z.compare_antisym ex ey), (HP mx my);
    destruct (ex ?= ey)%Z; cbn [CompOpp]; try reflexivity;
    destruct (Pos.compare_cont Eq mx my); reflexivity.
Qed.

Lemma SFcompare_not_nan x y :
  IEEE.is_nan x = false -> IEEE.is_nan y = false -> SFcompare x y <> None.
Proof. destruct x, y; cbn; congruence. Qed.

Lemma SFleb_not_nan x y :
  SFleb x y = true -> IEEE.is_nan x = false /\ IEEE.is_nan y = false.
Proof. destruct x, y; cbn; try discriminate; auto. Qed.

Lemma SFleb_refl x : IEEE.is_nan x = false -> SFleb x x = true.
Proof.
  destruct x as [s | s | | s m e]; cbn; try discriminate; try reflexivity.
  - destruct s; reflexivity.
  - intros _. rewrite Z.compare_refl.
    change (Pos.compare_cont Eq m m) with (Pos.compare m m).
    rewrite Pos.compare_refl. destruct s; reflexivity.
Qed.

Lemma SFltb_false_SFleb x y :
  IEEE.is_nan x = false -> IEEE.is_nan y = false ->
  SFltb x y = false -> SFleb y x = true.
Proof.
  intros Hx Hy. unfold SFltb, SFleb. rewrite (SFcompare_antisym x y).
  pose proof (SFcompare_not_nan x y Hx Hy) as Hn.
  destruct (SFcompare x y) as [[ | | ] |]; cbn; congruence.
Qed.

(** The filter returns a NaN exactly when it is given one (the bounds not
    being NaN). *)
Lemma saturation_filter_nan lo hi x :
  IEEE.is_nan lo = false -> IEEE.is_nan hi = false ->
  IEEE.is_nan (IEEE.saturation_filter lo hi x) = IEEE.is_nan x.
Proof.
  intros Hlo Hhi. unfold IEEE.saturation_filter, IEEE.fgt, IEEE.flt.
  destruct x; cbn; try reflexivity.
  - destruct (SFltb hi _); [exact Hhi |]. destruct (SFltb _ lo); [exact Hlo | reflexivity].
  - destruct (SFltb hi _); [exact Hhi |]. destruct (SFltb _ lo); [exact Hlo | reflexivity].
  - destruct hi; reflexivity.
  - destruct (SFltb hi _); [exact Hhi |]. destruct (SFltb _ lo); [exact Hlo | reflexivity].
Qed.

(** A filtered number that is not a NaN lies in the interval. *)
Lemma saturation_filter_within lo hi x :
  SFleb lo hi = true -> IEEE.is_nan x = false ->
  IEEE.within lo hi (IEEE.saturation_filter lo hi x) = true.
Proof.
  intros Hle Hx. destruct (SFleb_not_nan _ _ Hle) as [Hlo Hhi].
  unfold IEEE.saturation_filter, IEEE.within, IEEE.fgt, IEEE.flt.
  destruct (SFltb hi x) eqn:E1.
  - rewrite Hle, (SFleb_refl hi Hhi). reflexivity.
  - destruct (SFltb x lo) eqn:E2.
    + rewrite Hle, (SFleb_refl lo Hlo). reflexivity.
    + rewrite (SFltb_false_SFleb x lo Hx Hlo E2).
      rewrite (SFltb_false_SFleb hi x Hhi Hx E1). reflexivity.
Qed.

(** No interval contains a NaN. *)
Lemma within_nan lo hi x :
  IEEE.is_nan x = true -> IEEE.within lo hi x = false.
Proof.
  destruct x; try discriminate. intros _. unfold IEEE.within.
  destruct lo; reflexivity.
Qed.

Lemma ieee_pid_calculate_off prec emax cfg sp t p :
  IEEE.PID.state p = PID_OFF ->
  IEEE.pid_calculate prec emax cfg sp t p = (IEEE.of_Z prec emax 0, p).
Proof. intro H. unfold IEEE.pid_calculate. rewrite H. reflexivity. Qed.

Ltac ieee_simpl :=
  cbn -[IEEE.fadd IEEE.fsub IEEE.fmul IEEE.fdiv SFabs IEEE.fgt IEEE.flt
        IEEE.of_Q IEEE.of_Z].

(** An enabled [pid_calculate] in closed form: the value returned (the
    filter applied to the control law) and the PID struct it leaves. *)
Lemma ieee_pid_calculate_on prec emax cfg sp t p :
  IEEE.PID.state p = PID_ON ->
  let e := IEEE.fsub prec emax sp t in
  let out :=
    IEEE.saturation_filter (IEEE.PID.output_min p) (IEEE.PID.output_max p)
      (IEEE.pid_law prec emax cfg p sp t) in
  IEEE.pid_calculate prec emax cfg sp t p =
    (out,
     IEEE.PID.mk PID_ON (IEEE.PID.code p) out
       (IEEE.PID.output_max p) (IEEE.PID.output_min p)
       e e (IEEE.gated_integral prec emax cfg p e)
       (IEEE.fdiv prec emax (IEEE.fsub prec emax e (IEEE.PID.prev_error p))
          (IEEE.PID.dt p))
       (IEEE.PID.dt p) (IEEE.PID.Kp p) (IEEE.PID.Ki p) (IEEE.PID.Kd p) t sp).
Proof.
  intro Hon. destruct p. simpl in Hon. subst.
  unfold IEEE.pid_calculate, IEEE.pid_law, IEEE.gated_integral,
    IEEE.saturation_filter.
  ieee_simpl.
  destruct (IEEE.fgt (SFabs (IEEE.fsub prec emax sp t))
              (IEEE.of_Q prec emax (PID_EPSILON cfg))); ieee_simpl;
    match goal with |- context [IEEE.fgt ?a ?b] => destruct (IEEE.fgt a b) end;
    ieee_simpl; try reflexivity;
    match goal with |- context [IEEE.flt ?a ?b] => destruct (IEEE.flt a b) end;
    ieee_simpl; reflexivity.
Qed.

(** C6.  Where the PID is off [pid_calculate] returns 0 and changes
    nothing, and where it is on it returns the control law
    [Kp*error + Ki*integral + Kd*derivative] passed through the saturation
    filter, as the claim says.  The filter, two comparisons, lets a NaN
    through: with [output_min <= output_max], the value returned lies in
    [[output_min, output_max]] exactly when the control law is not a NaN.
    And the control law is a NaN for finite arguments.  After
    [pid_init ()], a call whose error overflows (setpoint 3e38 at -3e38 in
    binary32, 1e308 at -1e308 in binary64) returns 100 and leaves the
    integral and the previous error infinite; the next call, with setpoint
    140 at 130 degrees, computes [50 + inf - inf] and returns that NaN,
    which is neither [>= output_min] nor [<= output_max]: the value
    returned is not in [[0, 100]]. *)
Theorem pid_calculate_nan_escapes_saturation :
  (forall (prec emax : Z) (cfg : tc_config)
          (setpoint temperature : spec_float) (p : IEEE.PID.t),
     (IEEE.PID.state p = PID_OFF ->
        IEEE.pid_calculate prec emax cfg setpoint temperature p
        = (IEEE.of_Z prec emax 0, p))
     /\
     (IEEE.PID.state p = PID_ON ->
        fst (IEEE.pid_calculate prec emax cfg setpoint temperature p)
        = IEEE.saturation_filter (IEEE.PID.output_min p) (IEEE.PID.output_max p)
            (IEEE.pid_law prec emax cfg p setpoint temperature)
        /\
        (SFleb (IEEE.PID.output_min p) (IEEE.PID.output_max p) = true ->
           IEEE.is_nan
             (fst (IEEE.pid_calculate prec emax cfg setpoint temperature p))
           = IEEE.is_nan (IEEE.pid_law prec emax cfg p setpoint temperature)
           /\
           IEEE.within (IEEE.PID.output_min p) (IEEE.PID.output_max p)
             (fst (IEEE.pid_calculate prec emax cfg setpoint temperature p))
           = negb
               (IEEE.is_nan
                  (IEEE.pid_law prec emax cfg p setpoint temperature)))))
  /\
  (forall (prec emax big : Z),
     (prec = 24 /\ emax = 128 /\ big = 3 * 10 ^ 38 \/
      prec = 53 /\ emax = 1024 /\ big = 10 ^ 308)%Z ->
     let p0 := IEEE.pid_init prec emax example_config in
     let p1 := IEEE.overflowed prec emax example_config big in
     let r :=
       fst (IEEE.pid_calculate prec emax example_config
              (IEEE.of_Z prec emax 140) (IEEE.of_Z prec emax 130) p1) in
     fst (IEEE.pid_calculate prec emax example_config
            (IEEE.of_Z prec emax big) (SFopp (IEEE.of_Z prec emax big)) p0)
       = IEEE.of_Z prec emax 100 /\
     IEEE.PID.state p1 = PID_ON /\
     IEEE.PID.output_min p1 = IEEE.of_Z prec emax 0 /\
     IEEE.PID.output_max p1 = IEEE.of_Z prec emax 100 /\
     SFleb (IEEE.PID.output_min p1) (IEEE.PID.output_max p1) = true /\
     IEEE.PID.integral p1 = S754_infinity false /\
     IEEE.PID.prev_error p1 = S754_infinity false /\
     r = S754_nan /\
     SFleb (IEEE.PID.output_min p1) r = false /\
     SFleb r (IEEE.PID.output_max p1) = false /\
     IEEE.within (IEEE.PID.output_min p1) (IEEE.PID.output_max p1) r = false).
Proof.
  split.
  - intros prec emax cfg sp t p. split.
    + apply ieee_pid_calculate_off.
    + intro Hon. rewrite (ieee_pid_calculate_on prec emax cfg sp t p Hon).
      cbn [fst]. split; [reflexivity |]. intro Hle.
      destruct (SFleb_not_nan _ _ Hle) as [Hlo Hhi].
      split; [apply saturation_filter_nan; assumption |].
      destruct (IEEE.is_nan (IEEE.pid_law prec emax cfg p sp t)) eqn:En.
      * apply within_nan. rewrite saturation_filter_nan; assumption.
      * apply saturation_filter_within; assumption.
  - intros prec emax big [[-> [-> ->]] | [-> [-> ->]]];
      vm_compute; repeat split.
Qed.

(** A freshly initialised binary32 PID called with setpoint 140 at 130
    degrees: the value returned is in [[0, 100]], the control law not being
    a NaN; and the overflowing run in binary32, which returns a NaN. *)
Lemma pid_calculate_nan_escapes_saturation_witness :
  (IEEE.is_nan
     (fst (IEEE.pid_calculate 24 128 example_config
             (IEEE.of_Z 24 128 140) (IEEE.of_Z 24 128 130)
             (IEEE.pid_init 24 128 example_config)))
   = IEEE.is_nan
       (IEEE.pid_law 24 128 example_config
          (IEEE.pid_init 24 128 example_config)
          (IEEE.of_Z 24 128 140) (IEEE.of_Z 24 128 130))
   /\
   IEEE.within
     (IEEE.PID.output_min (IEEE.pid_init 24 128 example_config))
     (IEEE.PID.output_max (IEEE.pid_init 24 128 example_config))
     (fst (IEEE.pid_calculate 24 128 example_config
             (IEEE.of_Z 24 128 140) (IEEE.of_Z 24 128 130)
             (IEEE.pid_init 24 128 example_config)))
   = negb
       (IEEE.is_nan
          (IEEE.pid_law 24 128 example_config
             (IEEE.pid_init 24 128 example_config)
             (IEEE.of_Z 24 128 140) (IEEE.of_Z 24 128 130))))
  /\
  fst (IEEE.pid_calculate 24 128 example_config
         (IEEE.of_Z 24 128 140) (IEEE.of_Z 24 128 130)
         (IEEE.overflowed 24 128 example_config (3 * 10 ^ 38)))
  = S754_nan.
Proof.
  destruct pid_calculate_nan_escapes_saturation as [Hgen Hrun].
  split.
  - destruct (Hgen 24%Z 128%Z example_config
                (IEEE.of_Z 24 128 140) (IEEE.of_Z 24 128 130)
                (IEEE.pid_init 24 128 example_config)) as [_ Hon].
    destruct (Hon eq_refl) as [_ Hb].
    apply Hb. vm_compute. reflexivity.
  - destruct (Hrun 24%Z 128%Z (3 * 10 ^ 38)%Z) as [_ [_ [_ [_ [_ [_ [_ [Hr _]]]]]]]].
    + left. repeat split.
    + exact Hr.
Defined.

(** [pid_calculate] leaves the PID on, and its configuration alone. *)
Lemma pid_calculate_state cfg sp t w :
  PID.state (pid (snd (pid_calculate cfg sp t w))) = PID.state (pid w).
Proof.
  destruct (PID.state (pid w)) eqn:E.
  - rewrite (pid_calculate_off cfg sp t w E). exact E.
  - rewrite (pid_calculate_on cfg sp t w E). reflexivity.
Qed.

Lemma gated_integral_small cfg p e :
  Qabs e <= PID_EPSILON cfg -> gated_integral cfg p e = PID.integral p.
Proof.
  intro H. unfold gated_integral. apply Qgtb_le in H. rewrite H. reflexivity.
Qed.

Lemma gated_integral_large cfg p e :
  PID_EPSILON cfg < Qabs e ->
  gated_integral cfg p e = PID.integral p + e * PID.dt p.
Proof.
  intro H. unfold gated_integral. apply Qgtb_gt in H. rewrite H. reflexivity.
Qed.

Lemma Qabs_diff_zero (a b : Q) : a == b -> Qabs (a - b) == 0.
Proof.
  intro H. assert (E : a - b == 0) by (rewrite H; ring).
  rewrite E. reflexivity.
Qed.

(** Calls at the setpoint never move the integral when epsilon is not
    negative. *)
Lemma pid_calculate_n_integral cfg n sp t : forall w,
  0 <= PID_EPSILON cfg -> sp == t ->
  PID.integral (pid (pid_calculate_n cfg n sp t w)) = PID.integral (pid w).
Proof.
  induction n as [| n IH]; intros w Heps Heq; [reflexivity |].
  simpl. rewrite IH by assumption.
  destruct (PID.state (pid w)) eqn:E.
  - rewrite (pid_calculate_off cfg sp t w E). reflexivity.
  - rewrite (pid_calculate_on cfg sp t w E).
    cbn [snd pid set_pid PID.integral].
    apply gated_integral_small. rewrite (Qabs_diff_zero Heq). exact Heps.
Qed.

(** C7.  On a call of [pid_calculate] with the PID on, the integral grows
    by [error * dt] when [|error|] exceeds [PID_EPSILON] and is left as it
    was otherwise, while [prev_error] becomes the current error in both
    cases; so, [PID_EPSILON] not being negative, any number of calls with
    the temperature at the setpoint leaves the integral unchanged. *)
Theorem pid_integral_gated_by_epsilon :
  forall (cfg : tc_config) (setpoint temperature : Q) (w : World),
    PID.state (pid w) = PID_ON ->
    let error := setpoint - temperature in
    let w' := snd (pid_calculate cfg setpoint temperature w) in
    (PID_EPSILON cfg < Qabs error ->
       PID.integral (pid w') = PID.integral (pid w) + error * PID.dt (pid w))
    /\
    (Qabs error <= PID_EPSILON cfg ->
       PID.integral (pid w') = PID.integral (pid w))
    /\
    PID.prev_error (pid w') = error
    /\
    (0 <= PID_EPSILON cfg ->
     forall (n : nat) (sp t : Q), sp == t ->
       PID.integral (pid (pid_calculate_n cfg n sp t w)) = PID.integral (pid w)).
Proof.
  intros cfg sp t w Hon error w'. subst error w'.
  rewrite (pid_calculate_on cfg sp t w Hon).
  cbn [snd pid set_pid PID.integral PID.prev_error].
  repeat split.
  - apply gated_integral_large.
  - apply gated_integral_small.
  - intros Heps n sp' t' Heq. apply pid_calculate_n_integral; assumption.
Qed.

(** The PID of [pid_used] called 10 degrees under the setpoint adds
    [10 * dt] to its integral of 7 and records the error; five calls at
    the setpoint 200 leave the integral at 7. *)
Lemma pid_integral_gated_by_epsilon_witness :
  PID.integral (pid (snd (pid_calculate example_config 140 130 world_pid_used)))
    = 7 + (140 - 130) * (1 # 10) /\
  PID.prev_error (pid (snd (pid_calculate example_config 140 130 world_pid_used)))
    = 140 - 130 /\
  PID.integral (pid (pid_calculate_n example_config 5 200 200 world_pid_used)) = 7.
Proof.
  destruct (pid_integral_gated_by_epsilon example_config 140 130 world_pid_used
              eq_refl) as [Hlarge [_ [Hprev Hsteady]]].
  split; [| split].
  - apply Hlarge. vm_compute. reflexivity.
  - exact Hprev.
  - apply Hsteady; [vm_compute; discriminate | reflexivity].
Defined.

(** ** Frames of the PWM and sensor functions *)

Lemma same_but_pwm_refl w : same_but_pwm w w.
Proof. repeat split. Qed.

Lemma same_but_pwm_trans w1 w2 w3 :
  same_but_pwm w1 w2 -> same_but_pwm w2 w3 -> same_but_pwm w1 w3.
Proof.
  unfold same_but_pwm. intros [A [B [C D]]] [A' [B' [C' D']]].
  repeat split; congruence.
Qed.

Lemma pwm_init_frame w : same_but_pwm w (pwm_init w).
Proof. repeat split. Qed.

Lemma pwm_set_freq_frame cfg f w : same_but_pwm w (snd (pwm_set_freq cfg f w)).
Proof.
  unfold pwm_set_freq. simpl.
  destruct (period_ltb _ _); [repeat split |].
  destruct (period_geb _ _); repeat split.
Qed.

Lemma pwm_set_duty_frame cfg d w : same_but_pwm w (snd (pwm_set_duty cfg d w)).
Proof.
  unfold pwm_set_duty. simpl.
  destruct (Qleb d 0); [repeat split |].
  destruct (Qgtb d 100); repeat split.
Qed.

Lemma pwm_on_frame cfg f d w : same_but_pwm w (pwm_on cfg f d w).
Proof.
  unfold pwm_on.
  eapply same_but_pwm_trans; [apply pwm_init_frame |].
  eapply same_but_pwm_trans; [apply pwm_set_freq_frame |].
  apply pwm_set_duty_frame.
Qed.

Lemma pwm_set_duty_zero cfg w : OCR2B (snd (pwm_set_duty cfg 0 w)) = 255%Z.
Proof. reflexivity. Qed.

Lemma pwm_on_zero_duty cfg f w : OCR2B (pwm_on cfg f 0 w) = 255%Z.
Proof. reflexivity. Qed.

Lemma same_but_sensor_refl w : same_but_sensor w w.
Proof. repeat split. Qed.

Lemma same_but_sensor_trans w1 w2 w3 :
  same_but_sensor w1 w2 -> same_but_sensor w2 w3 -> same_but_sensor w1 w3.
Proof.
  unfold same_but_sensor. intros [A [B [C [D E]]]] [A' [B' [C' [D' E']]]].
  repeat split; congruence.
Qed.

Lemma upd_sensor_frame f w : same_but_sensor w (upd_sensor f w).
Proof. repeat split. Qed.

Lemma SAMPLE_frame cfg adc a w : same_but_sensor w (snd (SAMPLE cfg adc a w)).
Proof. repeat split. Qed.

Lemma sensor_sample_loop_frame cfg adc i : forall sample w,
  same_but_sensor w (snd (sensor_sample_loop cfg adc i sample w)).
Proof.
  induction i as [| i IH]; intros sample w; simpl.
  - apply same_but_sensor_refl.
  - destruct (Qltb _ _); simpl.
    + apply upd_sensor_frame.
    + eapply same_but_sensor_trans; [| apply IH]. repeat split.
Qed.

Lemma _sensor_sample_frame cfg adc a np w :
  same_but_sensor w (snd (_sensor_sample cfg adc a np w)).
Proof.
  unfold _sensor_sample. simpl. destruct np; simpl.
  - repeat split.
  - eapply same_but_sensor_trans; [| apply sensor_sample_loop_frame]. repeat split.
Qed.

Lemma sensor_callback_frame cfg adc w :
  same_but_sensor w (sensor_callback cfg adc w).
Proof.
  unfold sensor_callback.
  destruct (_ || _); [apply same_but_sensor_refl |].
  destruct (sensor_code_eqb _ _); [apply same_but_sensor_refl |].
  match goal with
  | |- context [_sensor_sample cfg adc ?a ?np ?w0] =>
      pose proof (_sensor_sample_frame cfg adc a np w0) as F;
      destruct (_sensor_sample cfg adc a np w0) as [temperature w1];
      assert (F0 : same_but_sensor w w0)
  end.
  { destruct (Sensor.samples (sensor w) =? 0)%Z; repeat split. }
  simpl in F. pose proof (same_but_sensor_trans F0 F) as F1.
  destruct (Qgtb temperature _);
    [eapply same_but_sensor_trans; [exact F1 | apply upd_sensor_frame] |].
  match goal with |- context [if ?b then _ else _] => destruct b end;
    [eapply same_but_sensor_trans; [exact F1 | repeat split] |].
  repeat match goal with |- context [if ?b then _ else _] => destruct b end;
    (eapply same_but_sensor_trans; [exact F1 | repeat split]).
Qed.

(** ** Heater state machine *)

Lemma heater_on_active cfg sp w :
  heater_active w = true -> heater_on cfg sp w = w.
Proof. unfold heater_active, heater_on. intros ->. reflexivity. Qed.

Lemma heater_on_inactive cfg sp w :
  heater_active w = false ->
  heater (heater_on cfg sp w) =
    Heater.set_state HEATER_HEATING (Heater.set_setpoint sp (heater w)) /\
  pid (heater_on cfg sp w) =
    PID.set_prev_error 0 (PID.set_integral 0 (pid w)) /\
  sensor (heater_on cfg sp w) = sensor w /\
  OCR2B (heater_on cfg sp w) = 255%Z.
Proof.
  unfold heater_active, heater_on. intros ->. unfold sensor_on.
  destruct (pwm_on_frame cfg (PWM_FREQUENCY cfg) 0 (pid_reset w))
    as [Hh [Hp [Hs _]]].
  cbn [heater pid sensor OCR2B upd_heater set_heater].
  rewrite Hh, Hp, Hs. repeat split.
Qed.

Lemma heater_off_effect cfg st c w :
  heater (heater_off cfg st c w) =
    Heater.set_code c (Heater.set_state st (heater w)) /\
  pid (heater_off cfg st c w) = pid w /\
  Sensor.state (sensor (heater_off cfg st c w)) = SENSOR_OFF /\
  OCR2B (heater_off cfg st c w) = 255%Z.
Proof.
  unfold heater_off, pwm_off, sensor_off.
  destruct (pwm_on_frame cfg 0 0 w) as [Hh [Hp [Hs _]]].
  cbn [heater pid sensor OCR2B upd_heater set_heater upd_sensor set_sensor].
  rewrite Hh, Hp. repeat split.
Qed.

Lemma heater_off_state cfg st c w :
  Heater.state (heater (heater_off cfg st c w)) = st /\
  Heater.code (heater (heater_off cfg st c w)) = c.
Proof.
  rewrite (proj1 (heater_off_effect cfg st c w)). split; reflexivity.
Qed.

Lemma heater_callback_inactive cfg w :
  Heater.state (heater w) = HEATER_OFF \/
  Heater.state (heater w) = HEATER_SHUTDOWN ->
  heater_callback cfg w = w.
Proof.
  unfold heater_callback. intros [H | H]; rewrite H; reflexivity.
Qed.

Lemma pid_calculate_frame cfg sp t w :
  heater (snd (pid_calculate cfg sp t w)) = heater w /\
  sensor (snd (pid_calculate cfg sp t w)) = sensor w.
Proof.
  destruct (PID.state (pid w)) eqn:E.
  - rewrite (pid_calculate_off cfg sp t w E). split; reflexivity.
  - rewrite (pid_calculate_on cfg sp t w E). split; reflexivity.
Qed.

(** A poll of the heater either keeps the heater state or ends in
    [HEATER_SHUTDOWN]. *)
Lemma heater_callback_state cfg w :
  Heater.state (heater (heater_callback cfg w)) = Heater.state (heater w) \/
  Heater.state (heater (heater_callback cfg w)) = HEATER_SHUTDOWN.
Proof.
  unfold heater_callback.
  destruct (_ || _); [left; reflexivity |].
  destruct (negb _); [left; reflexivity |].
  match goal with
  | |- context [pid_calculate cfg ?sp ?t ?w0] =>
      destruct (pid_calculate_frame cfg sp t w0) as [Fh _];
      destruct (pid_calculate cfg sp t w0) as [duty w1]
  end.
  simpl in Fh.
  destruct (pwm_set_duty_frame cfg duty w1) as [Gh _].
  destruct (heater_state_eqb _ _); [| left; rewrite Gh, Fh; reflexivity].
  match goal with |- context [if ?b then _ else _] => destruct b end.
  { right. apply (heater_off_state cfg). }
  match goal with |- context [if ?b then _ else _] => destruct b end.
  { right. apply (heater_off_state cfg). }
  left. cbn [heater upd_heater set_heater Heater.state Heater.set_regulation_timer].
  rewrite Gh, Fh. reflexivity.
Qed.


Lemma tick_unfold cfg adc w :
  tick cfg adc w =
    let w1 := sensor_callback cfg adc (upd_device (Device.set_tick_flag 0%Z) (ISR_TIMER0_OVF w)) in
    let w2 :=
      upd_device (fun d =>
        Device.set_tick_100ms_count (uint8 (Device.tick_100ms_count d - 1)) d) w1 in
    if negb (Device.tick_100ms_count (device w2) =? 0)%Z then w2
    else
      let w3 := heater_callback cfg (upd_device (Device.set_tick_100ms_count 10%Z) w2) in
      let w4 :=
        upd_device (fun d =>
          Device.set_tick_1sec_count (uint8 (Device.tick_1sec_count d - 1)) d) w3 in
      if negb (Device.tick_1sec_count (device w4) =? 0)%Z then w4
      else upd_device (Device.set_tick_1sec_count 10%Z) w4.
Proof.
  unfold tick, tick_callback, tick_10ms, tick_100ms, tick_1sec.
  cbn [ISR_TIMER0_OVF upd_device set_device device Device.tick_flag Device.set_tick_flag Z.eqb].
  cbv zeta.
  destruct (negb _); [reflexivity |].
  destruct (negb _); reflexivity.
Qed.

(** One base interval leaves the heater struct as it was, or as a poll of
    the heater leaves it. *)
Lemma tick_heater cfg adc w :
  heater (tick cfg adc w) = heater w \/
  exists w', heater w' = heater w /\
             heater (tick cfg adc w) = heater (heater_callback cfg w').
Proof.
  rewrite tick_unfold. cbv zeta.
  match goal with
  | |- context [sensor_callback cfg adc ?w0] =>
      destruct (sensor_callback_frame cfg adc w0) as [Fh _];
      set (w1 := sensor_callback cfg adc w0) in *
  end.
  simpl in Fh.
  destruct (negb _); [left; exact Fh |].
  right.
  match goal with
  | |- context [heater_callback cfg ?w0] => exists w0
  end.
  split; [exact Fh |].
  destruct (negb _); reflexivity.
Qed.
(** The heater state after each operation. *)
Lemma run_op_state cfg adc op w :
  let s := Heater.state (heater w) in
  let s' := Heater.state (heater (run_op cfg adc op w)) in
  match op with
  | Op_heater_init => s' = HEATER_OFF
  | Op_heater_on _ => s' = s \/ s' = HEATER_HEATING
  | Op_heater_off st _ => s' = st
  | Op_heater_callback | Op_tick => s' = s \/ s' = HEATER_SHUTDOWN
  end.
Proof.
  destruct op as [| sp | st c | |]; cbn [run_op]; cbv zeta.
  - reflexivity.
  - destruct (heater_active w) eqn:E.
    + left. rewrite (heater_on_active cfg sp w E). reflexivity.
    + right. rewrite (proj1 (heater_on_inactive cfg sp w E)). reflexivity.
  - apply (heater_off_state cfg).
  - apply heater_callback_state.
  - destruct (tick_heater cfg adc w) as [E | [w' [E1 E2]]].
    + left. rewrite E. reflexivity.
    + rewrite E2, <- E1. apply heater_callback_state.
Qed.

Lemma heater_active_false_iff w :
  heater_active w = false <->
  Heater.state (heater w) <> HEATER_HEATING /\
  Heater.state (heater w) <> HEATER_AT_TARGET.
Proof.
  unfold heater_active. destruct (Heater.state (heater w)); simpl;
    split; intro H; try reflexivity; try discriminate;
    try (split; discriminate); destruct H as [H1 H2]; congruence.
Qed.

Lemma heater_inactive w :
  Heater.state (heater w) = HEATER_OFF \/
  Heater.state (heater w) = HEATER_SHUTDOWN ->
  heater_active w = false.
Proof.
  intro H. apply heater_active_false_iff.
  destruct H as [H | H]; rewrite H; split; discriminate.
Qed.

(** Polls and [heater_off (HEATER_SHUTDOWN, code)] keep a heater that is
    shut down in [HEATER_SHUTDOWN]. *)
Lemma run_ops_keep_shutdown cfg adc ops : forall w,
  Forall keeps_shutdown ops ->
  Heater.state (heater w) = HEATER_SHUTDOWN ->
  Heater.state (heater (run_ops cfg adc ops w)) = HEATER_SHUTDOWN.
Proof.
  induction ops as [| op ops IH]; intros w Hops Hsd; [exact Hsd |].
  inversion Hops as [| ? ? Hop Hrest]; subst.
  cbn [run_ops]. apply IH; [exact Hrest |].
  pose proof (run_op_state cfg adc op w) as Hs. cbv zeta in Hs.
  destruct op as [| sp | st c | |]; cbn [keeps_shutdown] in Hop;
    try contradiction.
  - destruct st; try contradiction. exact Hs.
  - destruct Hs as [Hs | Hs]; congruence.
  - destruct Hs as [Hs | Hs]; congruence.
Qed.

(** What [heater_on] does does not depend on which inactive state the
    heater is in: from [HEATER_SHUTDOWN] (or any state but heating and at
    target) it leaves the globals it leaves from [HEATER_OFF]. *)
Lemma heater_on_as_if_off cfg sp w :
  heater_active w = false ->
  heater_on cfg sp w = heater_on cfg sp (as_if_off w).
Proof.
  intro E. unfold heater_on.
  fold (heater_active w). rewrite E.
  change (heater_state_eqb (Heater.state (heater (as_if_off w))) HEATER_HEATING
          || heater_state_eqb (Heater.state (heater (as_if_off w))) HEATER_AT_TARGET)
    with false.
  cbv iota. unfold sensor_on.
  destruct w as [d h p s a b c]. destruct h.
  unfold as_if_off, pid_reset, pwm_on, pwm_set_duty, pwm_set_freq, pwm_init.
  cbn -[Qleb Qgtb period_ltb period_geb pwm_period uint8_of_period
        uint8_of_double uint8 inject_Z Qmult Qminus Qdiv].
  repeat match goal with
  | |- context [if ?b then _ else _] => destruct b
  end; reflexivity.
Qed.

(** C3, as the code has it.  Once the heater is in [HEATER_SHUTDOWN], every
    sequence of polls ([heater_callback], ticks) and of
    [heater_off (HEATER_SHUTDOWN, code)] calls leaves it there.
    [heater_init] exits the state (to [HEATER_OFF]).  So does [heater_on]:
    called in [HEATER_SHUTDOWN] it does what it does from [HEATER_OFF] (it
    leaves the very globals it would leave had the state been
    [HEATER_OFF]): it stores the setpoint, zeroes the PID integral and
    previous error, restarts the PWM at [PWM_FREQUENCY] with zero duty
    ([OCR2B = 255]) and sets [HEATER_HEATING]; it leaves the sensor and the
    regulation timer as they are.  And [heater_off] stores the state it is
    given. *)
Theorem shutdown_kept_by_polls_left_by_heater_on :
  forall (cfg : tc_config) (adc : nat -> Z) (w : World),
    Heater.state (heater w) = HEATER_SHUTDOWN ->
    (forall ops : list heater_op,
       Forall keeps_shutdown ops ->
       Heater.state (heater (run_ops cfg adc ops w)) = HEATER_SHUTDOWN)
    /\ Heater.state (heater (heater_init cfg w)) = HEATER_OFF
    /\ (forall setpoint : Q,
          let w' := heater_on cfg setpoint w in
          w' = heater_on cfg setpoint (as_if_off w) /\
          Heater.state (heater w') = HEATER_HEATING /\
          Heater.setpoint (heater w') = setpoint /\
          PID.integral (pid w') = 0 /\
          PID.prev_error (pid w') = 0 /\
          OCR2B w' = 255%Z /\
          Device.pwm_freq (device w') = pwm_period cfg (PWM_FREQUENCY cfg) /\
          sensor w' = sensor w /\
          Heater.regulation_timer (heater w')
            = Heater.regulation_timer (heater w))
    /\ (forall (state : heater_state) (code : heater_code),
          Heater.state (heater (heater_off cfg state code w)) = state).
Proof.
  intros cfg adc w Hsd. split; [| split; [| split]].
  - intros ops Hops. apply run_ops_keep_shutdown; assumption.
  - reflexivity.
  - intros sp w'. subst w'.
    assert (E : heater_active w = false).
    { apply heater_inactive. right. exact Hsd. }
    split; [apply heater_on_as_if_off; exact E |].
    destruct (heater_on_inactive cfg sp w E) as [Hh [Hp [Hs Ho]]].
    rewrite Hh, Hp, Hs, Ho.
    repeat split.
    unfold heater_on. fold (heater_active w). rewrite E.
    unfold sensor_on, pwm_on, pwm_set_duty, pwm_set_freq. cbn [snd].
    repeat match goal with
    | |- context [if ?b then _ else _] => destruct b
    end; reflexivity.
  - intros st c. apply (heater_off_state cfg).
Qed.

(** A heater shut down with the ambient-timeout code stays shut down
    through polls, ticks and a further [heater_off]; [heater_on (150)]
    takes it to [HEATER_HEATING] with the setpoint 150, the PID zeroed and
    the PWM at zero duty, as from [HEATER_OFF], and with the sensor still
    off. *)
Lemma shutdown_kept_by_polls_left_by_heater_on_witness :
  Heater.state
    (heater
       (run_ops example_config adc_steady
          [Op_heater_callback; Op_tick; Op_tick;
           Op_heater_off HEATER_SHUTDOWN HEATER_REGULATION_TIMED_OUT;
           Op_heater_callback]
          world_shutdown)) = HEATER_SHUTDOWN /\
  (let w' := heater_on example_config 150 world_shutdown in
   w' = heater_on example_config 150 (as_if_off world_shutdown) /\
   Heater.state (heater w') = HEATER_HEATING /\
   Heater.setpoint (heater w') = 150 /\
   PID.integral (pid w') = 0 /\
   PID.prev_error (pid w') = 0 /\
   OCR2B w' = 255%Z /\
   Device.pwm_freq (device w')
     = pwm_period example_config (PWM_FREQUENCY example_config) /\
   sensor w' = sensor world_shutdown /\
   Heater.regulation_timer (heater w')
     = Heater.regulation_timer (heater world_shutdown)) /\
  Sensor.state (sensor world_shutdown) = SENSOR_OFF.
Proof.
  destruct (shutdown_kept_by_polls_left_by_heater_on example_config adc_steady
              world_shutdown eq_refl) as [Hpolls [_ [Hon _]]].
  split; [| split].
  - apply Hpolls. repeat constructor.
  - apply (Hon 150).
  - reflexivity.
Defined.

(** C3 as stated fails: [heater_on] called in [HEATER_SHUTDOWN] starts a
    heating cycle. *)
Lemma heater_on_exits_shutdown :
  Heater.state (heater world_shutdown) = HEATER_SHUTDOWN /\
  Heater.state
    (heater (run_ops example_config adc_steady [Op_heater_on 140] world_shutdown))
    = HEATER_HEATING /\
  Heater.state
    (heater (run_ops example_config adc_steady [Op_heater_on 140] world_shutdown))
    <> HEATER_SHUTDOWN.
Proof. vm_compute. repeat split; discriminate. Qed.

(** ** The heater state stays among off, heating and shut down *)

(** Each issued operation keeps the heater state among [HEATER_OFF],
    [HEATER_HEATING] and [HEATER_SHUTDOWN]. *)
Lemma run_ops_three_states cfg adc ops : forall w,
  Forall issued ops ->
  (Heater.state (heater w) = HEATER_OFF \/
   Heater.state (heater w) = HEATER_HEATING \/
   Heater.state (heater w) = HEATER_SHUTDOWN) ->
  Heater.state (heater (run_ops cfg adc ops w)) = HEATER_OFF \/
  Heater.state (heater (run_ops cfg adc ops w)) = HEATER_HEATING \/
  Heater.state (heater (run_ops cfg adc ops w)) = HEATER_SHUTDOWN.
Proof.
  induction ops as [| op ops IH]; intros w Hops Hw; [exact Hw |].
  inversion Hops as [| ? ? Hop Hrest]; subst.
  cbn [run_ops]. apply IH; [exact Hrest |].
  pose proof (run_op_state cfg adc op w) as Hs. cbv zeta in Hs.
  destruct op as [| sp | st c | |]; cbn [issued] in Hop.
  - left. exact Hs.
  - destruct Hs as [Hs | Hs]; rewrite Hs; [exact Hw | right; left; reflexivity].
  - rewrite Hs. destruct st; try contradiction; auto.
  - destruct Hs as [Hs | Hs]; rewrite Hs; [exact Hw | right; right; reflexivity].
  - destruct Hs as [Hs | Hs]; rewrite Hs; [exact Hw | right; right; reflexivity].
Qed.

(** C10.  From initialisation on, through every sequence of the heater
    operations as they are issued ([heater_init], [heater_on],
    [heater_callback], ticks, and [heater_off] with [HEATER_OFF] or
    [HEATER_SHUTDOWN]), the heater state is [HEATER_OFF], [HEATER_HEATING]
    or [HEATER_SHUTDOWN]: never [HEATER_AT_TARGET] (nor any other byte).
    No operation assigns [HEATER_AT_TARGET]: whatever the state before,
    [heater_init], [heater_on], [heater_callback] and a tick leave the
    state as it was or in one of those three, and [heater_off] leaves the
    state it is passed. *)
Theorem heater_never_at_target :
  forall (cfg : tc_config) (adc : nat -> Z),
    (forall (ops : list heater_op) (w0 : World),
       Forall issued ops ->
       let s := Heater.state (heater (run_ops cfg adc ops (heater_init cfg w0))) in
       (s = HEATER_OFF \/ s = HEATER_HEATING \/ s = HEATER_SHUTDOWN) /\
       s <> HEATER_AT_TARGET)
    /\
    (forall (op : heater_op) (w : World),
       let s := Heater.state (heater w) in
       let s' := Heater.state (heater (run_op cfg adc op w)) in
       match op with
       | Op_heater_off state _ => s' = state
       | _ => s' = s \/ s' = HEATER_OFF \/ s' = HEATER_HEATING
              \/ s' = HEATER_SHUTDOWN
       end).
Proof.
  intros cfg adc. split.
  - intros ops w0 Hops s.
    assert (H : s = HEATER_OFF \/ s = HEATER_HEATING \/ s = HEATER_SHUTDOWN).
    { apply run_ops_three_states; [exact Hops | left; reflexivity]. }
    split; [exact H |].
    destruct H as [H | [H | H]]; rewrite H; discriminate.
  - intros op w s s'. subst s s'.
    pose proof (run_op_state cfg adc op w) as Hs. cbv zeta in Hs.
    destruct op as [| sp | st c | |].
    + right. left. exact Hs.
    + destruct Hs as [Hs | Hs]; [left | right; right; left]; exact Hs.
    + exact Hs.
    + destruct Hs as [Hs | Hs]; [left | right; right; right]; exact Hs.
    + destruct Hs as [Hs | Hs]; [left | right; right; right]; exact Hs.
Qed.

(** A run of the operations as they are issued, from initialisation. *)
Lemma heater_never_at_target_witness :
  let s :=
    Heater.state
      (heater
         (run_ops example_config adc_steady
            [Op_heater_on 140; Op_tick; Op_heater_callback;
             Op_heater_off HEATER_SHUTDOWN HEATER_REGULATION_TIMED_OUT;
             Op_heater_on 100; Op_heater_off HEATER_OFF HEATER_OK;
             Op_heater_init; Op_heater_on 120]
            (heater_init example_config World_zero))) in
  (s = HEATER_OFF \/ s = HEATER_HEATING \/ s = HEATER_SHUTDOWN) /\
  s <> HEATER_AT_TARGET.
Proof.
  apply (proj1 (heater_never_at_target example_config adc_steady)).
  repeat constructor.
Defined.

(** ** PID reset at the start of a heating cycle *)

(** C9.  After [heater_on (setpoint)] followed at once by
    [heater_off (HEATER_OFF, code)], the next [heater_on] starts a heating
    cycle with the PID integral and previous error at zero; they are
    already zero before that next [heater_on] when the first one started a
    cycle; and every [heater_on] that takes the heater into
    [HEATER_HEATING] leaves integral and previous error at zero. *)
Theorem heater_on_resets_pid :
  forall (cfg : tc_config) (setpoint setpoint' : Q) (code : heater_code)
         (w : World),
    let w1 := heater_off cfg HEATER_OFF code (heater_on cfg setpoint w) in
    let w2 := heater_on cfg setpoint' w1 in
    (Heater.state (heater w2) = HEATER_HEATING /\
     PID.integral (pid w2) = 0 /\ PID.prev_error (pid w2) = 0)
    /\
    (heater_active w = false ->
     PID.integral (pid w1) = 0 /\ PID.prev_error (pid w1) = 0)
    /\
    (forall (w0 : World) (sp : Q),
       heater_active w0 = false ->
       Heater.state (heater (heater_on cfg sp w0)) = HEATER_HEATING /\
       PID.integral (pid (heater_on cfg sp w0)) = 0 /\
       PID.prev_error (pid (heater_on cfg sp w0)) = 0).
Proof.
  intros cfg sp sp' code w w1 w2.
  assert (Hgen : forall (w0 : World) (sp0 : Q),
            heater_active w0 = false ->
            Heater.state (heater (heater_on cfg sp0 w0)) = HEATER_HEATING /\
            PID.integral (pid (heater_on cfg sp0 w0)) = 0 /\
            PID.prev_error (pid (heater_on cfg sp0 w0)) = 0).
  { intros w0 sp0 E.
    destruct (heater_on_inactive cfg sp0 w0 E) as [Hh [Hp _]].
    rewrite Hh, Hp. repeat split. }
  split; [| split].
  - apply Hgen. apply heater_inactive. left.
    apply (heater_off_state cfg).
  - intro E. subst w1.
    rewrite (proj1 (proj2 (heater_off_effect cfg HEATER_OFF code _))).
    apply (Hgen w sp E).
  - exact Hgen.
Qed.

(** A heater that is off with integral 7 and previous error 10 left in
    its PID: switched on, off and on again, it starts with both at zero. *)
Lemma heater_on_resets_pid_witness :
  PID.integral (pid world_off_pid_used) = 7 /\
  (let w1 :=
     heater_off example_config HEATER_OFF HEATER_OK
       (heater_on example_config 140 world_off_pid_used) in
   PID.integral (pid w1) = 0 /\ PID.prev_error (pid w1) = 0) /\
  (let w2 :=
     heater_on example_config 150
       (heater_off example_config HEATER_OFF HEATER_OK
          (heater_on example_config 140 world_off_pid_used)) in
   Heater.state (heater w2) = HEATER_HEATING /\
   PID.integral (pid w2) = 0 /\ PID.prev_error (pid w2) = 0).
Proof.
  destruct (heater_on_resets_pid example_config 140 150 HEATER_OK
              world_off_pid_used) as [Hnext [Hbefore _]].
  split; [reflexivity |]. split.
  - apply Hbefore. reflexivity.
  - exact Hnext.
Defined.

(** ** A sensor that is shut down: the heater waits *)

Lemma sensor_callback_dead cfg adc w :
  Sensor.state (sensor w) = SENSOR_OFF \/
  Sensor.state (sensor w) = SENSOR_SHUTDOWN ->
  sensor_callback cfg adc w = w.
Proof.
  unfold sensor_callback. intros [H | H]; rewrite H; reflexivity.
Qed.

(** With no data from the sensor a poll of the heater changes nothing but
    [sensor.samples]. *)
Lemma heater_callback_no_data cfg w :
  Sensor.state (sensor w) <> SENSOR_HAS_DATA ->
  heater_callback cfg w = w \/
  heater_callback cfg w = sensor_start_temperature_reading w.
Proof.
  intro H. unfold heater_callback.
  destruct (_ || _); [left; reflexivity |]. right.
  unfold sensor_get_state.
  cbn [sensor sensor_start_temperature_reading upd_sensor set_sensor
       Sensor.state Sensor.set_samples].
  apply (is_eq_false sensor_state_eq_dec) in H.
  unfold sensor_state_eqb. rewrite H. reflexivity.
Qed.

(** What the heater and the host can see of the globals when the sensor
    is shut down. *)
Lemma tick_sensor_shutdown cfg adc w :
  Sensor.state (sensor w) = SENSOR_SHUTDOWN ->
  heater (tick cfg adc w) = heater w /\
  OCR2B (tick cfg adc w) = OCR2B w /\
  Sensor.state (sensor (tick cfg adc w)) = SENSOR_SHUTDOWN /\
  Sensor.code (sensor (tick cfg adc w)) = Sensor.code (sensor w).
Proof.
  intro Hsd. rewrite tick_unfold. cbv zeta.
  rewrite sensor_callback_dead by (right; exact Hsd).
  destruct (negb _); [repeat split; exact Hsd |].
  match goal with
  | |- context [heater_callback cfg ?w0] =>
      destruct (heater_callback_no_data cfg w0) as [E | E];
        [cbn [sensor upd_device set_device ISR_TIMER0_OVF]; rewrite Hsd; discriminate
        | rewrite E | rewrite E]
  end;
  (destruct (negb _); repeat split; exact Hsd).
Qed.

Lemma ticks_sensor_shutdown cfg adc n : forall w,
  Sensor.state (sensor w) = SENSOR_SHUTDOWN ->
  heater (ticks cfg adc n w) = heater w /\
  OCR2B (ticks cfg adc n w) = OCR2B w /\
  Sensor.state (sensor (ticks cfg adc n w)) = SENSOR_SHUTDOWN /\
  Sensor.code (sensor (ticks cfg adc n w)) = Sensor.code (sensor w).
Proof.
  induction n as [| n IH]; intros w Hsd; [repeat split; exact Hsd |].
  cbn [ticks].
  destruct (tick_sensor_shutdown cfg adc w Hsd) as [Hh [Ho [Hs Hc]]].
  destruct (IH (tick cfg adc w) Hs) as [Hh' [Ho' [Hs' Hc']]].
  repeat split; congruence.
Qed.

(** C2, the behaviour of the code.  The probe glitches on the second
    sample after [heater_on (140)]: the retries are exhausted and the
    sensor shuts down with the bad-readings code.  However many ticks
    follow, the heater stays in [HEATER_HEATING] with the code [HEATER_OK]:
    the sensor fault never reaches the heater's state and code. *)
Theorem sensor_fault_leaves_heater_heating :
  forall n : nat,
    let w_fault := ticks example_config adc_glitch 2 world_heating in
    let w := ticks example_config adc_glitch n w_fault in
    Sensor.state (sensor w_fault) = SENSOR_SHUTDOWN /\
    Sensor.code (sensor w_fault) = SENSOR_READING_FAILED_BAD_READINGS /\
    Sensor.state (sensor w) = SENSOR_SHUTDOWN /\
    Sensor.code (sensor w) = SENSOR_READING_FAILED_BAD_READINGS /\
    Heater.state (heater w) = HEATER_HEATING /\
    Heater.code (heater w) = HEATER_OK.
Proof.
  intros n w_fault w.
  assert (Hs : Sensor.state (sensor w_fault) = SENSOR_SHUTDOWN)
    by (vm_compute; reflexivity).
  assert (Hc : Sensor.code (sensor w_fault) = SENSOR_READING_FAILED_BAD_READINGS)
    by (vm_compute; reflexivity).
  assert (Hh : Heater.state (heater w_fault) = HEATER_HEATING)
    by (vm_compute; reflexivity).
  assert (Hk : Heater.code (heater w_fault) = HEATER_OK)
    by (vm_compute; reflexivity).
  destruct (ticks_sensor_shutdown example_config adc_glitch n w_fault Hs)
    as [Eh [_ [Es Ec]]].
  subst w. rewrite Eh, Es, Ec. repeat split; assumption.
Qed.

(** ** [heater_on] and the regulation timer *)

(** [heater_on] never writes [heater.regulation_timer], nor the sensor. *)
Lemma heater_on_keeps_timer_and_sensor cfg sp w :
  Heater.regulation_timer (heater (heater_on cfg sp w))
    = Heater.regulation_timer (heater w) /\
  sensor (heater_on cfg sp w) = sensor w.
Proof.
  destruct (heater_active w) eqn:E.
  - rewrite (heater_on_active cfg sp w E). split; reflexivity.
  - destruct (heater_on_inactive cfg sp w E) as [Hh [_ [Hs _]]].
    rewrite Hh, Hs. split; reflexivity.
Qed.

(** C4, the behaviour of the code.  A heating cycle of thirty ticks
    brings the regulation timer to 0.3 s; the heater is switched off and
    on again: the new cycle is in [HEATER_HEATING] with the PID reset and
    the PWM at zero duty, but its timer still reads 0.3 s and the sensor is
    still off. *)
Theorem heater_on_keeps_stale_timer :
  let w_off :=
    heater_off example_config HEATER_OFF HEATER_OK
      (ticks example_config adc_steady 30 world_heating) in
  let w := heater_on example_config 140 w_off in
  Heater.state (heater w_off) = HEATER_OFF /\
  Heater.state (heater w) = HEATER_HEATING /\
  PID.integral (pid w) = 0 /\ PID.prev_error (pid w) = 0 /\
  OCR2B w = 255%Z /\
  Heater.regulation_timer (heater w) == 3 # 10 /\
  ~ Heater.regulation_timer (heater w) == 0 /\
  Sensor.state (sensor w) = SENSOR_OFF.
Proof.
  vm_compute. repeat split; discriminate.
Qed.

(** ** PWM duty cycle *)

Lemma uint8_range z : (0 <= uint8 z < 256)%Z.
Proof. unfold uint8. apply Z.mod_pos_bound. lia. Qed.

Lemma uint8_of_double_range cfg q : (0 <= uint8_of_double cfg q < 256)%Z.
Proof.
  unfold uint8_of_double.
  destruct ((0 <=? Qtrunc q)%Z && (Qtrunc q <? 256)%Z) eqn:E.
  - apply andb_true_iff in E. destruct E as [E1 E2].
    apply Z.leb_le in E1. apply Z.ltb_lt in E2. lia.
  - apply uint8_range.
Qed.

Lemma uint8_of_period_range cfg p : (0 <= uint8_of_period cfg p < 256)%Z.
Proof.
  destruct p; simpl; [apply uint8_of_double_range | |]; apply uint8_range.
Qed.

(** On a rational that is not negative the C conversion is the floor. *)
Lemma Qtrunc_floor q : 0 <= q -> Qtrunc q = Qfloor q.
Proof.
  destruct q as [n d]. unfold Qle, Qtrunc, Qfloor. simpl. intro H.
  apply Z.quot_div_nonneg; lia.
Qed.

Lemma uint8_of_double_floor cfg q :
  0 <= q -> q < 256 -> uint8_of_double cfg q = Qfloor q.
Proof.
  intros H0 H1. unfold uint8_of_double. rewrite (Qtrunc_floor H0).
  assert (L : (0 <= Qfloor q)%Z).
  { change 0%Z with (Qfloor 0). apply Qfloor_resp_le. exact H0. }
  assert (U : (Qfloor q < 256)%Z).
  { rewrite Zlt_Qlt. apply Qle_lt_trans with q; [apply Qfloor_le | exact H1]. }
  apply Z.leb_le in L. apply Z.ltb_lt in U. rewrite L, U. reflexivity.
Qed.

Lemma scaled_compare_range top duty :
  (0 <= top < 256)%Z -> 0 < duty -> duty <= 100 ->
  0 <= scaled_compare top duty /\ scaled_compare top duty < 256.
Proof.
  intros [Ht0 Ht1] Hd0 Hd1. unfold scaled_compare.
  assert (T0 : 0 <= inject_Z top).
  { change (inject_Z 0 <= inject_Z top). rewrite <- Zle_Qle. exact Ht0. }
  assert (T1 : inject_Z top < 256).
  { change (inject_Z top < inject_Z 256). rewrite <- Zlt_Qlt. exact Ht1. }
  assert (E : duty / 100 == duty * (1 # 100)) by reflexivity.
  rewrite E.
  assert (F0 : 0 <= 1 - duty * (1 # 100)) by lra.
  assert (F1 : 1 - duty * (1 # 100) <= 1) by lra.
  split; [apply Qmult_le_0_compat; assumption |].
  apply Qle_lt_trans with (inject_Z top * 1); [| lra].
  rewrite (Qmult_comm (inject_Z top)), (Qmult_comm (inject_Z top) 1).
  apply Qmult_le_compat_r; assumption.
Qed.

Lemma scaled_compare_antitone top d1 d2 :
  (0 <= top)%Z -> d1 <= d2 -> scaled_compare top d2 <= scaled_compare top d1.
Proof.
  intros Ht Hd. unfold scaled_compare.
  assert (T0 : 0 <= inject_Z top).
  { change (inject_Z 0 <= inject_Z top). rewrite <- Zle_Qle. exact Ht. }
  assert (E : forall d, d / 100 == d * (1 # 100)) by (intro; reflexivity).
  rewrite !E.
  rewrite (Qmult_comm (inject_Z top)), (Qmult_comm (inject_Z top) (1 - d1 * _)).
  apply Qmult_le_compat_r; [lra | exact T0].
Qed.

(** [OCR2B] after [pwm_set_duty], by the range of the duty. *)
Lemma pwm_set_duty_OCR2B cfg duty w :
  OCR2B (snd (pwm_set_duty cfg duty w)) =
    if Qleb duty 0 then 255%Z
    else if Qgtb duty 100 then 0%Z
    else uint8_of_double cfg (scaled_compare (OCR2A w) duty).
Proof.
  unfold pwm_set_duty. cbn [snd].
  destruct (Qleb duty 0); [reflexivity |].
  destruct (Qgtb duty 100); reflexivity.
Qed.

Lemma pwm_set_duty_OCR2A cfg duty w :
  OCR2A (snd (pwm_set_duty cfg duty w)) =
    uint8_of_period cfg (Device.pwm_freq (device w)).
Proof.
  unfold pwm_set_duty. cbn [snd].
  destruct (Qleb duty 0); [reflexivity |].
  destruct (Qgtb duty 100); reflexivity.
Qed.

Lemma pwm_set_duty_OCR2B_range cfg duty w :
  (0 <= OCR2B (snd (pwm_set_duty cfg duty w)) < 256)%Z.
Proof.
  rewrite pwm_set_duty_OCR2B.
  destruct (Qleb duty 0); [lia |].
  destruct (Qgtb duty 100); [lia |].
  apply uint8_of_double_range.
Qed.

(** The compare value does not grow with the duty. *)
Lemma pwm_set_duty_OCR2B_antitone cfg d1 d2 w :
  (0 <= OCR2A w < 256)%Z -> d1 <= d2 ->
  (OCR2B (snd (pwm_set_duty cfg d2 w)) <= OCR2B (snd (pwm_set_duty cfg d1 w)))%Z.
Proof.
  intros Htop Hd.
  pose proof (pwm_set_duty_OCR2B_range cfg d1 w) as R1.
  pose proof (pwm_set_duty_OCR2B_range cfg d2 w) as R2.
  rewrite !pwm_set_duty_OCR2B in *.
  destruct (Qleb d1 0) eqn:A1.
  { destruct (Qleb d2 0); [lia |]. lia. }
  apply Qleb_gt in A1.
  destruct (Qleb d2 0) eqn:A2.
  { apply Qleb_le in A2. exfalso. lra. }
  apply Qleb_gt in A2.
  destruct (Qgtb d2 100) eqn:B2.
  { destruct (Qgtb d1 100); lia. }
  apply Qgtb_le in B2.
  destruct (Qgtb d1 100) eqn:B1.
  { apply Qgtb_gt in B1. exfalso. lra. }
  apply Qgtb_le in B1.
  destruct (scaled_compare_range Htop A1 B1) as [L1 U1].
  destruct (scaled_compare_range Htop A2 B2) as [L2 U2].
  rewrite !uint8_of_double_floor by assumption.
  apply Qfloor_resp_le. apply scaled_compare_antitone; [lia | exact Hd].
Qed.

Lemma on_time_antitone (w1 w2 : World) :
  OCR2A w1 = OCR2A w2 -> (OCR2B w2 <= OCR2B w1)%Z ->
  (on_time w1 <= on_time w2)%Z.
Proof. unfold on_time. intros E H. rewrite E. lia. Qed.

(** C8, as the code has it.  With the TOP register holding a byte, the
    compare value written by [pwm_set_duty] does not grow and the on time
    of the output does not shrink as the requested duty grows, over all
    duties; every duty of zero or less gives the output fully off
    ([OCR2B = 255]); a duty of 100 gives it fully on ([OCR2B = 0]); and
    every duty above 100 gives the same fully-on output as a duty of
    100. *)
Theorem pwm_set_duty_monotone_clamped_on :
  forall (cfg : tc_config) (w : World),
    (0 <= OCR2A w < 256)%Z ->
    (forall d1 d2 : Q,
       d1 <= d2 ->
       (OCR2B (snd (pwm_set_duty cfg d2 w)) <= OCR2B (snd (pwm_set_duty cfg d1 w)))%Z /\
       (on_time (snd (pwm_set_duty cfg d1 w)) <= on_time (snd (pwm_set_duty cfg d2 w)))%Z)
    /\ (forall d : Q, d <= 0 -> fully_off (snd (pwm_set_duty cfg d w)))
    /\ fully_on (snd (pwm_set_duty cfg 100 w))
    /\ (forall d : Q,
          100 < d ->
          fully_on (snd (pwm_set_duty cfg d w)) /\
          OCR2B (snd (pwm_set_duty cfg d w)) = OCR2B (snd (pwm_set_duty cfg 100 w)) /\
          OCR2A (snd (pwm_set_duty cfg d w)) = OCR2A (snd (pwm_set_duty cfg 100 w))).
Proof.
  intros cfg w Htop.
  pose proof (uint8_of_period_range cfg (Device.pwm_freq (device w))) as Rtop.
  assert (Hon : forall d, OCR2B (snd (pwm_set_duty cfg d w)) = 0%Z ->
                          fully_on (snd (pwm_set_duty cfg d w))).
  { intros d E. unfold fully_on, on_time.
    rewrite E, pwm_set_duty_OCR2A. split; [reflexivity | lia]. }
  assert (H100 : OCR2B (snd (pwm_set_duty cfg 100 w)) = 0%Z).
  { rewrite pwm_set_duty_OCR2B. cbn [Qleb Qgtb].
    change (Qleb 100 0) with false. change (Qgtb 100 100) with false.
    cbv iota.
    assert (E : scaled_compare (OCR2A w) 100 == 0).
    { unfold scaled_compare. setoid_replace (100 / 100) with 1 by reflexivity. ring. }
    rewrite uint8_of_double_floor.
    - rewrite (Qfloor_comp _ _ E). reflexivity.
    - rewrite E. apply Qle_refl.
    - rewrite E. reflexivity. }
  split; [| split; [| split]].
  - intros d1 d2 Hd.
    pose proof (pwm_set_duty_OCR2B_antitone cfg w Htop Hd) as Hb.
    split; [exact Hb |].
    apply on_time_antitone; [| exact Hb].
    rewrite !pwm_set_duty_OCR2A. reflexivity.
  - intros d Hd. unfold fully_off, on_time.
    rewrite pwm_set_duty_OCR2B, pwm_set_duty_OCR2A.
    apply Qleb_le in Hd. rewrite Hd. split; [reflexivity | lia].
  - apply Hon. exact H100.
  - intros d Hd.
    assert (E : OCR2B (snd (pwm_set_duty cfg d w)) = 0%Z).
    { rewrite pwm_set_duty_OCR2B.
      assert (A : Qleb d 0 = false) by (apply Qleb_gt; lra).
      apply Qgtb_gt in Hd. rewrite A, Hd. reflexivity. }
    split; [apply Hon; exact E |].
    split; [rewrite E, H100; reflexivity |].
    rewrite !pwm_set_duty_OCR2A. reflexivity.
Qed.

(** At 1 kHz (TOP = 250) and 50 percent: the duties 20 and 80 are ordered,
    and the duties 0, 100 and 150 give fully off, fully on and fully
    on. *)
Lemma pwm_set_duty_monotone_clamped_on_witness :
  (on_time (snd (pwm_set_duty example_config 20 world_pwm))
   <= on_time (snd (pwm_set_duty example_config 80 world_pwm)))%Z /\
  fully_off (snd (pwm_set_duty example_config 0 world_pwm)) /\
  fully_on (snd (pwm_set_duty example_config 100 world_pwm)) /\
  fully_on (snd (pwm_set_duty example_config 150 world_pwm)).
Proof.
  assert (Htop : (0 <= OCR2A world_pwm < 256)%Z) by (vm_compute; split; [discriminate | reflexivity]).
  destruct (pwm_set_duty_monotone_clamped_on example_config world_pwm Htop)
    as [Hmono [Hoff [Hon Hover]]].
  split; [| split; [| split]].
  - apply (Hmono 20 80). vm_compute. discriminate.
  - apply Hoff. vm_compute. discriminate.
  - exact Hon.
  - apply Hover. vm_compute. reflexivity.
Defined.

(** C8 as stated fails: a duty above 100 does not give the fully-off
    output, it gives the fully-on output of a duty of 100. *)
Lemma pwm_duty_over_100_is_fully_on :
  ~ fully_off (snd (pwm_set_duty example_config 150 world_pwm)) /\
  fully_on (snd (pwm_set_duty example_config 150 world_pwm)) /\
  OCR2B (snd (pwm_set_duty example_config 150 world_pwm)) = 0%Z /\
  on_time (snd (pwm_set_duty example_config 150 world_pwm)) = 250%Z /\
  OCR2B (snd (pwm_set_duty example_config 0 world_pwm)) = 255%Z /\
  on_time (snd (pwm_set_duty example_config 0 world_pwm)) = 0%Z.
Proof.
  unfold fully_off, fully_on. vm_compute.
  repeat split; try discriminate. intros [H _]. discriminate.
Qed.

(** ** The sensor after a completed reading *)

(** Once a reading has completed, [sensor_callback] returns before it
    looks at [sensor.samples]: starting a reading does not start one. *)
Lemma sensor_callback_after_complete cfg adc n : forall w,
  Sensor.code (sensor w) = SENSOR_READING_COMPLETE ->
  sensor_callback_n cfg adc n (sensor_start_temperature_reading w)
    = sensor_start_temperature_reading w.
Proof.
  induction n as [| n IH]; intros w Hc; [reflexivity |].
  cbn [sensor_callback_n].
  assert (E : sensor_callback cfg adc (sensor_start_temperature_reading w)
              = sensor_start_temperature_reading w).
  { unfold sensor_callback.
    cbn [sensor sensor_start_temperature_reading upd_sensor set_sensor
         Sensor.state Sensor.code Sensor.set_samples].
    rewrite Hc. destruct (_ || _); reflexivity. }
  rewrite E. apply IH. exact Hc.
Qed.

(** C5, the behaviour of the code.  The first reading after
    initialisation completes in eight polls with the mean 149 of its
    samples.  A second reading is then started and the sensor is polled
    eight more times while the probe reads 159, within variance of 149: no
    conversion is made, no sample is counted and the temperature is still
    149, not the mean 159 of the new samples. *)
Theorem start_reading_after_complete_takes_no_sample :
  let w_done := sensor_callback_n example_config adc_step 8 world_heating in
  let w_start := sensor_start_temperature_reading w_done in
  let w := sensor_callback_n example_config adc_step 8 w_start in
  (Sensor.state (sensor w_done) = SENSOR_HAS_DATA /\
   Sensor.code (sensor w_done) = SENSOR_READING_COMPLETE /\
   Sensor.temperature (sensor w_done) == mean_samples example_config adc_step 0 8 /\
   adc_conversions w_done = 8%nat)
  /\
  (w = w_start /\
   adc_conversions w = 8%nat /\
   Sensor.samples (sensor w) = 0%Z /\
   Sensor.temperature (sensor w) == 149 /\
   mean_samples example_config adc_step 8 8 == 159 /\
   ~ Sensor.temperature (sensor w) == mean_samples example_config adc_step 8 8).
Proof.
  intros w_done w_start w.
  assert (Hdone : Sensor.state (sensor w_done) = SENSOR_HAS_DATA /\
                  Sensor.code (sensor w_done) = SENSOR_READING_COMPLETE /\
                  Sensor.temperature (sensor w_done)
                    == mean_samples example_config adc_step 0 8 /\
                  adc_conversions w_done = 8%nat).
  { vm_compute. repeat split. }
  split; [exact Hdone |].
  assert (E : w = w_start).
  { apply sensor_callback_after_complete. apply Hdone. }
  rewrite E. split; [reflexivity |].
  vm_compute. repeat split; discriminate.
Qed.

(** ** The sensor while it samples *)

Ltac sensor_simpl :=
  cbn -[Qplus Qmult Qminus Qdiv Qabs Qgtb Qltb Qleb int8 Z.ltb Z.eqb
        inject_Z uint16 Z.to_nat].

(** One poll that accepts its sample: on the first sample of a reading
    unconditionally, later when the sample is within variance of the
    previous one. *)
Lemma sensor_callback_accept cfg adc w :
  sensor_alive w ->
  Sensor.code (sensor w) <> SENSOR_READING_COMPLETE ->
  let t := sample_at cfg adc (adc_conversions w) in
  (Sensor.samples (sensor w) = 0%Z \/
   (1 <= Sensor.retries (sensor w))%Z /\
   Qabs (t - Sensor.previous_temp (sensor w)) < Sensor.variance (sensor w)) ->
  t <= SURFACE_OF_THE_SUN cfg ->
  let w' := sensor_callback cfg adc w in
  let acc' :=
    (if (Sensor.samples (sensor w) =? 0)%Z then 0
     else Sensor.accumulator (sensor w)) + t in
  let n' := int8 (Sensor.samples (sensor w) + 1) in
  adc_conversions w' = S (adc_conversions w) /\
  Sensor.samples (sensor w') = n' /\
  Sensor.accumulator (sensor w') = acc' /\
  Sensor.previous_temp (sensor w') = t /\
  Sensor.samples_per_reading (sensor w') = Sensor.samples_per_reading (sensor w) /\
  Sensor.retries (sensor w') = Sensor.retries (sensor w) /\
  Sensor.variance (sensor w') = Sensor.variance (sensor w) /\
  ((n' < Sensor.samples_per_reading (sensor w))%Z ->
     Sensor.state (sensor w') = Sensor.state (sensor w) /\
     Sensor.code (sensor w') =
       (if (Sensor.samples (sensor w) =? 0)%Z then SENSOR_IS_READING
        else Sensor.code (sensor w)) /\
     Sensor.temperature (sensor w') = Sensor.temperature (sensor w)) /\
  ((Sensor.samples_per_reading (sensor w) <= n')%Z ->
     Sensor.temperature (sensor w') = acc' / inject_Z n' /\
     (Sensor.state (sensor w'), Sensor.code (sensor w'))
       = classify cfg (acc' / inject_Z n')).
Proof.
  intros [Ha1 Ha2] Hc t Hacc Hsun w' acc' n'.
  subst w' acc' n' t.
  destruct w as [d h p s a b c].
  destruct s as [st co spr n r temp prev acc var dis nop].
  cbn [sensor adc_conversions Sensor.state Sensor.code Sensor.samples
       Sensor.retries Sensor.previous_temp Sensor.variance
       Sensor.accumulator Sensor.samples_per_reading Sensor.temperature] in *.
  unfold sensor_callback.
  cbn [sensor Sensor.state Sensor.code Sensor.samples].
  apply (is_eq_false sensor_state_eq_dec) in Ha1, Ha2.
  apply (is_eq_false sensor_code_eq_dec) in Hc.
  unfold sensor_state_eqb, sensor_code_eqb. rewrite Ha1, Ha2, Hc.
  cbn [orb].
  apply Qgtb_le in Hsun. unfold sample_at in *.
  destruct (n =? 0)%Z eqn:En.
  - unfold _sensor_sample, SAMPLE, adc_read. sensor_simpl.
    rewrite Hsun. sensor_simpl.
    destruct (int8 (n + 1) <? spr)%Z eqn:Elt;
      [apply Z.ltb_lt in Elt | apply Z.ltb_ge in Elt]; sensor_simpl.
    + repeat split; intros; try reflexivity; exfalso; lia.
    + unfold classify. sensor_simpl.
      match goal with |- context [Qgtb ?x ?y] => destruct (Qgtb x y) end;
        sensor_simpl;
        [repeat split; intros; try reflexivity; exfalso; lia |].
      match goal with |- context [Qltb ?x ?y] => destruct (Qltb x y) end;
        sensor_simpl;
        repeat split; intros; try reflexivity; exfalso; lia.
  - destruct Hacc as [Hz | [Hr Hv]]; [apply Z.eqb_neq in En; contradiction |].
    unfold _sensor_sample, SAMPLE, adc_read. sensor_simpl.
    destruct (Z.to_nat r) as [| i] eqn:Er; [lia |].
    cbn [sensor_sample_loop]. unfold fabs. sensor_simpl.
    apply Qltb_lt in Hv. rewrite Hv. sensor_simpl.
    rewrite Hsun. sensor_simpl.
    destruct (int8 (n + 1) <? spr)%Z eqn:Elt;
      [apply Z.ltb_lt in Elt | apply Z.ltb_ge in Elt]; sensor_simpl.
    + repeat split; intros; try reflexivity; exfalso; lia.
    + unfold classify. sensor_simpl.
      match goal with |- context [Qgtb ?x ?y] => destruct (Qgtb x y) end;
        sensor_simpl;
        [repeat split; intros; try reflexivity; exfalso; lia |].
      match goal with |- context [Qltb ?x ?y] => destruct (Qltb x y) end;
        sensor_simpl;
        repeat split; intros; try reflexivity; exfalso; lia.
Qed.

Lemma sensor_callback_n_last cfg adc n : forall w,
  sensor_callback_n cfg adc (S n) w
    = sensor_callback cfg adc (sensor_callback_n cfg adc n w).
Proof.
  induction n as [| n IH]; intro w; [reflexivity |].
  change (sensor_callback_n cfg adc (S (S n)) w)
    with (sensor_callback_n cfg adc (S n) (sensor_callback cfg adc w)).
  rewrite IH. reflexivity.
Qed.

Lemma sum_samples_last cfg adc n : forall k acc,
  sum_samples cfg adc k (S n) acc
    = sum_samples cfg adc k n acc + sample_at cfg adc (k + n).
Proof.
  induction n as [| n IH]; intros k acc.
  - simpl. rewrite Nat.add_0_r. reflexivity.
  - change (sum_samples cfg adc k (S (S n)) acc)
      with (sum_samples cfg adc (S k) (S n) (acc + sample_at cfg adc k)).
    rewrite IH. simpl. rewrite <- plus_n_Sm. reflexivity.
Qed.

Lemma int8_small z : (-128 <= z < 128)%Z -> int8 z = z.
Proof. intro H. unfold int8. rewrite Z.mod_small; lia. Qed.

Section Reading.
Variable cfg : tc_config.
Variable adc : nat -> Z.
Variable w : World.
Variable N : nat.

Let c := adc_conversions w.

Hypothesis Halive : sensor_alive w.
Hypothesis Hcode : Sensor.code (sensor w) <> SENSOR_READING_COMPLETE.
Hypothesis Hstart : Sensor.samples (sensor w) = 0%Z.
Hypothesis Hspr : Sensor.samples_per_reading (sensor w) = Z.of_nat N.
Hypothesis HN : (N <= 127)%nat.
Hypothesis Hretries : (1 <= Sensor.retries (sensor w))%Z.
Hypothesis Hsun :
  forall k, (k < N)%nat -> sample_at cfg adc (c + k) <= SURFACE_OF_THE_SUN cfg.
Hypothesis Hvar :
  forall k, (S k < N)%nat ->
    Qabs (sample_at cfg adc (c + S k) - sample_at cfg adc (c + k))
      < Sensor.variance (sensor w).

(** The sensor after [j] polls of a reading of [N] samples, [0 < j < N]. *)
Lemma sensor_sampling : forall j,
  (0 < j)%nat -> (j < N)%nat ->
  let wj := sensor_callback_n cfg adc j w in
  adc_conversions wj = (c + j)%nat /\
  Sensor.samples (sensor wj) = Z.of_nat j /\
  Sensor.accumulator (sensor wj) = sum_samples cfg adc c j 0 /\
  Sensor.previous_temp (sensor wj) = sample_at cfg adc (c + (j - 1)) /\
  Sensor.samples_per_reading (sensor wj) = Z.of_nat N /\
  Sensor.retries (sensor wj) = Sensor.retries (sensor w) /\
  Sensor.variance (sensor wj) = Sensor.variance (sensor w) /\
  Sensor.state (sensor wj) = Sensor.state (sensor w) /\
  Sensor.code (sensor wj) = SENSOR_IS_READING /\
  Sensor.temperature (sensor wj) = Sensor.temperature (sensor w).
Proof.
  induction j as [| j IH]; intros Hj0 HjN; [lia |].
  cbv zeta. rewrite sensor_callback_n_last.
  destruct j as [| j].
  - (* the first sample of the reading *)
    cbn [sensor_callback_n].
    assert (Ht : sample_at cfg adc (adc_conversions w) <= SURFACE_OF_THE_SUN cfg).
    { specialize (Hsun (k := 0%nat)). unfold c in Hsun.
      rewrite Nat.add_0_r in Hsun. apply Hsun. lia. }
    destruct (@sensor_callback_accept cfg adc w Halive Hcode (or_introl Hstart) Ht)
      as [A1 [A2 [A3 [A4 [A5 [A6 [A7 [A8 _]]]]]]]].
    rewrite Hstart, Hspr in *. change (0 + 1)%Z with 1%Z in *.
    rewrite (int8_small (z := 1)) in * by lia.
    destruct A8 as [B1 [B2 B3]]; [lia |].
    change (0 =? 0)%Z with true in *. cbv iota in *.
    fold c in A1, A4, A3.
    repeat split; try assumption.
    + rewrite A1. lia.
    + rewrite A4. simpl. rewrite Nat.add_0_r. reflexivity.
  - (* a later sample *)
    destruct IH as [I1 [I2 [I3 [I4 [I5 [I6 [I7 [I8 [I9 I10]]]]]]]]]; [lia | lia |].
    set (wj := sensor_callback_n cfg adc (S j) w) in *.
    assert (Hal : sensor_alive wj).
    { unfold sensor_alive. rewrite I8. exact Halive. }
    assert (Hco : Sensor.code (sensor wj) <> SENSOR_READING_COMPLETE).
    { rewrite I9. discriminate. }
    assert (Ht : sample_at cfg adc (adc_conversions wj) <= SURFACE_OF_THE_SUN cfg).
    { rewrite I1. apply Hsun. lia. }
    assert (Hv : (1 <= Sensor.retries (sensor wj))%Z /\
                 Qabs (sample_at cfg adc (adc_conversions wj)
                       - Sensor.previous_temp (sensor wj))
                   < Sensor.variance (sensor wj)).
    { rewrite I6, I7, I1, I4. split; [exact Hretries |].
      replace (S j - 1)%nat with j by lia. apply Hvar. lia. }
    destruct (@sensor_callback_accept cfg adc wj Hal Hco (or_intror Hv) Ht)
      as [A1 [A2 [A3 [A4 [A5 [A6 [A7 [A8 _]]]]]]]].
    rewrite I2, I5 in *.
    assert (En : int8 (Z.of_nat (S j) + 1) = Z.of_nat (S (S j))).
    { rewrite int8_small; lia. }
    rewrite En in *.
    destruct A8 as [B1 [B2 B3]]; [lia |].
    assert (Ez : (Z.of_nat (S j) =? 0)%Z = false) by (apply Z.eqb_neq; lia).
    rewrite Ez in *.
    repeat split; try congruence.
    + rewrite A1, I1. lia.
    + rewrite A3, I3, I1. symmetry. apply sum_samples_last.
    + rewrite A4, I1. replace (S (S j) - 1)%nat with (S j) by lia. reflexivity.
Qed.

(** The reading completes at the [N]-th poll, with the mean of the [N]
    samples, classified. *)
Lemma sensor_reading_done :
  (1 <= N)%nat ->
  let w' := sensor_callback_n cfg adc N w in
  adc_conversions w' = (c + N)%nat /\
  Sensor.temperature (sensor w') = mean_samples cfg adc c N /\
  (Sensor.state (sensor w'), Sensor.code (sensor w'))
    = classify cfg (mean_samples cfg adc c N).
Proof.
  intros HN1. cbv zeta. unfold mean_samples.
  assert (EN : N = S (pred N)) by lia.
  rewrite EN. rewrite sensor_callback_n_last.
  destruct (pred N) as [| n] eqn:Epred.
  - cbn [sensor_callback_n].
    assert (Ht : sample_at cfg adc (adc_conversions w) <= SURFACE_OF_THE_SUN cfg).
    { specialize (Hsun (k := 0%nat)). unfold c in Hsun.
      rewrite Nat.add_0_r in Hsun. apply Hsun. lia. }
    destruct (@sensor_callback_accept cfg adc w Halive Hcode (or_introl Hstart) Ht)
      as [A1 [_ [_ [_ [_ [_ [_ [_ A9]]]]]]]].
    rewrite Hstart, Hspr in *. change (0 + 1)%Z with 1%Z in *.
    rewrite (int8_small (z := 1)) in * by lia.
    destruct A9 as [B1 B2]; [lia |].
    change (0 =? 0)%Z with true in *. cbv iota in *.
    fold c in A1, B1, B2.
    split; [rewrite A1; lia |].
    split; [exact B1 | exact B2].
  - destruct (@sensor_sampling (S n)) as
      [I1 [I2 [I3 [I4 [I5 [I6 [I7 [I8 [I9 I10]]]]]]]]]; [lia | lia |].
    set (wj := sensor_callback_n cfg adc (S n) w) in *.
    assert (Hal : sensor_alive wj).
    { unfold sensor_alive. rewrite I8. exact Halive. }
    assert (Hco : Sensor.code (sensor wj) <> SENSOR_READING_COMPLETE).
    { rewrite I9. discriminate. }
    assert (Ht : sample_at cfg adc (adc_conversions wj) <= SURFACE_OF_THE_SUN cfg).
    { rewrite I1. apply Hsun. lia. }
    assert (Hv : (1 <= Sensor.retries (sensor wj))%Z /\
                 Qabs (sample_at cfg adc (adc_conversions wj)
                       - Sensor.previous_temp (sensor wj))
                   < Sensor.variance (sensor wj)).
    { rewrite I6, I7, I1, I4. split; [exact Hretries |].
      replace (S n - 1)%nat with n by lia. apply Hvar. lia. }
    destruct (@sensor_callback_accept cfg adc wj Hal Hco (or_intror Hv) Ht)
      as [A1 [_ [_ [_ [_ [_ [_ [_ A9]]]]]]]].
    rewrite I2, I5 in *.
    assert (En : int8 (Z.of_nat (S n) + 1) = Z.of_nat (S (S n))).
    { rewrite int8_small; lia. }
    rewrite En in *.
    destruct A9 as [B1 B2]; [lia |].
    assert (Ez : (Z.of_nat (S n) =? 0)%Z = false) by (apply Z.eqb_neq; lia).
    rewrite Ez, I3, I1 in *.
    rewrite <- sum_samples_last in B1, B2.
    split; [rewrite A1; lia |].
    split; [exact B1 | exact B2].
Qed.
End Reading.

(** ** The sensor when every retry is out of variance *)

(** The retry loop entered with [i] retries left: when the sample under
    test and the next re-samples are all out of variance, the loop makes
    [i] conversions and returns [HOTTER_THAN_THE_SUN]. *)
Lemma sensor_sample_loop_exhausted cfg adc i : forall sample w,
  ((0 < i)%nat ->
     Sensor.variance (sensor w)
       <= Qabs (sample - Sensor.previous_temp (sensor w))) ->
  (forall k, (S k < i)%nat ->
     Sensor.variance (sensor w)
       <= Qabs (sample_at cfg adc (adc_conversions w + k)
                - Sensor.previous_temp (sensor w))) ->
  sensor_sample_loop cfg adc i sample w
    = (HOTTER_THAN_THE_SUN cfg,
       set_adc_conversions (adc_conversions w + i) w).
Proof.
  induction i as [| i IH]; intros sample w H0 Hk.
  - simpl. rewrite Nat.add_0_r. destruct w. reflexivity.
  - cbn [sensor_sample_loop]. unfold fabs.
    assert (E : Qltb (Qabs (sample - Sensor.previous_temp (sensor w)))
                     (Sensor.variance (sensor w)) = false).
    { apply Qltb_ge. apply H0. lia. }
    rewrite E. unfold SAMPLE, adc_read.
    rewrite IH.
    + cbn [adc_conversions set_adc_conversions]. f_equal.
      destruct w. unfold set_adc_conversions. simpl. f_equal. lia.
    + intros Hi. cbn [sensor set_adc_conversions].
      specialize (Hk 0%nat). rewrite Nat.add_0_r in Hk. apply Hk. lia.
    + intros k Hlt. cbn [sensor adc_conversions set_adc_conversions].
      specialize (Hk (S k)). rewrite <- plus_n_Sm in Hk. apply Hk. lia.
Qed.

(** When a sample after the first one of a reading, and every re-sample
    the retries allow, is out of variance, the poll shuts the sensor down
    with the bad-readings code. *)
Lemma sensor_retries_exhausted cfg adc w :
  sensor_alive w ->
  Sensor.code (sensor w) <> SENSOR_READING_COMPLETE ->
  Sensor.samples (sensor w) <> 0%Z ->
  SURFACE_OF_THE_SUN cfg < HOTTER_THAN_THE_SUN cfg ->
  (forall k, (k < Z.to_nat (Sensor.retries (sensor w)))%nat ->
     Sensor.variance (sensor w)
       <= Qabs (sample_at cfg adc (adc_conversions w + k)
                - Sensor.previous_temp (sensor w))) ->
  Sensor.state (sensor (sensor_callback cfg adc w)) = SENSOR_SHUTDOWN /\
  Sensor.code (sensor (sensor_callback cfg adc w))
    = SENSOR_READING_FAILED_BAD_READINGS.
Proof.
  intros [Ha1 Ha2] Hc Hn Hhot Hout.
  unfold sensor_callback.
  apply (is_eq_false sensor_state_eq_dec) in Ha1, Ha2.
  apply (is_eq_false sensor_code_eq_dec) in Hc.
  unfold sensor_state_eqb, sensor_code_eqb. rewrite Ha1, Ha2, Hc.
  cbn [orb]. apply Z.eqb_neq in Hn. rewrite Hn.
  unfold _sensor_sample, SAMPLE, adc_read.
  cbn [sensor set_adc_conversions].
  rewrite sensor_sample_loop_exhausted.
  - apply Qgtb_gt in Hhot. rewrite Hhot. split; reflexivity.
  - intros Hi. cbn [sensor set_adc_conversions].
    specialize (Hout 0%nat). rewrite Nat.add_0_r in Hout.
    apply Hout. exact Hi.
  - intros k Hlt. cbn [sensor adc_conversions set_adc_conversions].
    specialize (Hout (S k)). rewrite <- plus_n_Sm in Hout. apply Hout. exact Hlt.
Qed.

(** ** The dispatch loop of the main controller *)

(** [_shutdown_idler] is the third callback of [_controller_HSM]: when the
    two reset handlers fall through and it returns [STAT_EAGAIN], none of
    the sixteen callbacks below it runs. *)
Lemma controller_HSM_shutdown_starves
  (Machine : Type)
  (hw_hard_reset_handler hw_bootloader_handler _shutdown_idler
   _limit_switch_handler cm_feedhold_sequencing_callback
   mp_plan_hold_callback _system_assertions st_motor_power_callback
   sr_status_report_callback qr_queue_report_callback cm_arc_callback
   cm_homing_callback cm_jogging_callback cm_probe_callback
   _sync_to_planner _sync_to_tx_buffer set_baud_callback
   _command_dispatch : callback Machine) (m m1 : Machine) :
  falls_through [hw_hard_reset_handler; hw_bootloader_handler] m m1 ->
  fst (_shutdown_idler m1) = STAT_EAGAIN ->
  let fs :=
    controller_HSM_list hw_hard_reset_handler hw_bootloader_handler
      _shutdown_idler _limit_switch_handler cm_feedhold_sequencing_callback
      mp_plan_hold_callback _system_assertions st_motor_power_callback
      sr_status_report_callback qr_queue_report_callback cm_arc_callback
      cm_homing_callback cm_jogging_callback cm_probe_callback
      _sync_to_planner _sync_to_tx_buffer set_baud_callback
      _command_dispatch in
  dispatch fs m = snd (_shutdown_idler m1) /\
  invoked fs m = [0; 1; 2]%nat.
Proof.
  intros Hpre Hidle fs. subst fs. unfold controller_HSM_list.
  match goal with
  | |- context [_shutdown_idler :: ?rest] =>
      destruct (falls_through_prefix Hpre (_shutdown_idler :: rest)) as [Hd Hi]
  end.
  cbn [app] in Hd, Hi. rewrite Hd, Hi, dispatch_cons, invoked_cons.
  apply stat_eqb_eagain in Hidle. rewrite Hidle. split; reflexivity.
Qed.

(** * Further properties of the temperature controller *)

(** ** The tick flag and the down counters *)

Lemma same_ticks_refl w : same_ticks w w.
Proof. repeat split. Qed.

Lemma same_ticks_trans w1 w2 w3 :
  same_ticks w1 w2 -> same_ticks w2 w3 -> same_ticks w1 w3.
Proof.
  unfold same_ticks. intros [A [B C]] [A' [B' C']]. repeat split; congruence.
Qed.

Lemma pwm_on_ticks cfg f d w : same_ticks w (pwm_on cfg f d w).
Proof.
  unfold pwm_on, pwm_set_duty, pwm_set_freq, pwm_init. cbn [snd].
  repeat match goal with
  | |- context [if ?b then _ else _] => destruct b
  end; repeat split.
Qed.

Lemma pwm_set_duty_ticks cfg d w : same_ticks w (snd (pwm_set_duty cfg d w)).
Proof.
  unfold pwm_set_duty. cbn [snd].
  destruct (Qleb d 0); [repeat split |].
  destruct (Qgtb d 100); repeat split.
Qed.

Lemma heater_off_ticks cfg st c w : same_ticks w (heater_off cfg st c w).
Proof.
  unfold heater_off, pwm_off, sensor_off.
  eapply same_ticks_trans; [apply (pwm_on_ticks cfg 0 0 w) |]. repeat split.
Qed.

(** [pid_calculate] writes the PID struct only. *)
Lemma pid_calculate_only_pid cfg sp t w :
  exists p', snd (pid_calculate cfg sp t w) = set_pid p' w.
Proof.
  destruct (PID.state (pid w)) eqn:E.
  - rewrite (pid_calculate_off cfg sp t w E). exists (pid w).
    destruct w. reflexivity.
  - rewrite (pid_calculate_on cfg sp t w E). eexists. reflexivity.
Qed.

Lemma heater_callback_ticks cfg w :
  same_ticks w (heater_callback cfg w) /\
  adc_conversions (heater_callback cfg w) = adc_conversions w.
Proof.
  unfold heater_callback.
  destruct (_ || _); [split; [apply same_ticks_refl | reflexivity] |].
  destruct (negb _); [split; [repeat split | reflexivity] |].
  match goal with
  | |- context [pid_calculate cfg ?sp ?t ?w0] =>
      destruct (pid_calculate_only_pid cfg sp t w0) as [p' Ep];
      destruct (pid_calculate cfg sp t w0) as [duty w1]
  end.
  cbn [snd] in Ep. subst w1.
  match goal with
  | |- context [pwm_set_duty cfg duty ?w0] =>
      pose proof (pwm_set_duty_ticks cfg duty w0) as T;
      destruct (pwm_set_duty_frame cfg duty w0) as [_ [_ [_ A]]];
      set (w2 := snd (pwm_set_duty cfg duty w0)) in *
  end.
  assert (T0 : same_ticks w w2) by (eapply same_ticks_trans; [| exact T]; repeat split).
  assert (A0 : adc_conversions w2 = adc_conversions w) by (rewrite A; reflexivity).
  destruct (heater_state_eqb _ _); [| split; assumption].
  assert (H : forall c w3, same_ticks w w3 -> adc_conversions w3 = adc_conversions w ->
            same_ticks w (heater_off cfg HEATER_SHUTDOWN c w3) /\
            adc_conversions (heater_off cfg HEATER_SHUTDOWN c w3) = adc_conversions w).
  { intros c w3 T3 A3. split.
    - eapply same_ticks_trans; [exact T3 | apply heater_off_ticks].
    - unfold heater_off, pwm_off, sensor_off.
      destruct (pwm_on_frame cfg 0 0 w3) as [_ [_ [_ E]]].
      cbn [adc_conversions upd_heater set_heater upd_sensor set_sensor].
      rewrite E. exact A3. }
  match goal with |- context [if ?b then _ else _] => destruct b end;
    [apply H; [exact T0 | exact A0] |].
  match goal with |- context [if ?b then _ else _] => destruct b end;
    [apply H; [exact T0 | exact A0] |].
  split; assumption.
Qed.

(** [tick_callback] when the flag is set. *)
Lemma tick_callback_pending cfg adc w :
  Device.tick_flag (device w) <> 0%Z ->
  tick_callback cfg adc w =
    (SC_OK,
     let w1 := sensor_callback cfg adc (upd_device (Device.set_tick_flag 0%Z) w) in
     let w2 :=
       upd_device (fun d =>
         Device.set_tick_100ms_count (uint8 (Device.tick_100ms_count d - 1)) d) w1 in
     if negb (Device.tick_100ms_count (device w2) =? 0)%Z then w2
     else
       let w3 := heater_callback cfg (upd_device (Device.set_tick_100ms_count 10%Z) w2) in
       let w4 :=
         upd_device (fun d =>
           Device.set_tick_1sec_count (uint8 (Device.tick_1sec_count d - 1)) d) w3 in
       if negb (Device.tick_1sec_count (device w4) =? 0)%Z then w4
       else upd_device (Device.set_tick_1sec_count 10%Z) w4).
Proof.
  intro H. unfold tick_callback, tick_10ms, tick_100ms, tick_1sec.
  apply Z.eqb_neq in H. rewrite H. cbv zeta.
  destruct (negb _); [reflexivity |].
  destruct (negb _); reflexivity.
Qed.

Lemma tick_callback_clears_flag cfg adc w :
  Device.tick_flag (device w) <> 0%Z ->
  Device.tick_flag (device (snd (tick_callback cfg adc w))) = 0%Z.
Proof.
  intro H. rewrite (tick_callback_pending cfg adc w H). cbn [snd]. cbv zeta.
  match goal with
  | |- context [sensor_callback cfg adc ?w0] =>
      destruct (sensor_callback_frame cfg adc w0) as [_ [_ [Fd _]]];
      set (w1 := sensor_callback cfg adc w0) in *
  end.
  cbn [device upd_device set_device] in Fd.
  destruct (negb _).
  { cbn [device upd_device set_device Device.tick_flag Device.set_tick_100ms_count].
    rewrite Fd. reflexivity. }
  match goal with
  | |- context [heater_callback cfg ?w0] =>
      destruct (heater_callback_ticks cfg w0) as [[Tf _] _];
      set (w3 := heater_callback cfg w0) in *
  end.
  cbn [device upd_device set_device Device.tick_flag Device.set_tick_100ms_count] in Tf.
  rewrite Fd in Tf. cbn [Device.tick_flag Device.set_tick_flag] in Tf.
  destruct (negb _);
    cbn [device upd_device set_device Device.tick_flag Device.set_tick_1sec_count];
    exact Tf.
Qed.

(** X1.  [tick_callback] with the flag clear returns [SC_NOOP] and changes
    nothing; whatever the state, the flag is clear when it returns, so a
    second call with no interrupt in between is a no-op; it never returns
    [SC_EAGAIN]; and the flag is not a counter: two interrupts before a
    poll leave the same state as one. *)
Theorem tick_flag_consumed_once :
  forall (cfg : tc_config) (adc : nat -> Z) (w : World),
    (Device.tick_flag (device w) = 0%Z ->
       tick_callback cfg adc w = (SC_NOOP, w))
    /\ Device.tick_flag (device (snd (tick_callback cfg adc w))) = 0%Z
    /\ tick_callback cfg adc (snd (tick_callback cfg adc w))
         = (SC_NOOP, snd (tick_callback cfg adc w))
    /\ fst (tick_callback cfg adc w) <> SC_EAGAIN
    /\ ISR_TIMER0_OVF (ISR_TIMER0_OVF w) = ISR_TIMER0_OVF w.
Proof.
  intros cfg adc w.
  assert (Hidle : forall w0, Device.tick_flag (device w0) = 0%Z ->
                    tick_callback cfg adc w0 = (SC_NOOP, w0)).
  { intros w0 H. unfold tick_callback. rewrite H. reflexivity. }
  assert (Hclear : Device.tick_flag (device (snd (tick_callback cfg adc w))) = 0%Z).
  { destruct (Z.eq_dec (Device.tick_flag (device w)) 0) as [E | E].
    - rewrite (Hidle w E). exact E.
    - apply tick_callback_clears_flag. exact E. }
  split; [apply Hidle |]. split; [exact Hclear |].
  split; [apply Hidle; exact Hclear |]. split.
  - destruct (Z.eq_dec (Device.tick_flag (device w)) 0) as [E | E].
    + rewrite (Hidle w E). discriminate.
    + rewrite (tick_callback_pending cfg adc w E). discriminate.
  - reflexivity.
Qed.

Lemma tick_flag_consumed_once_witness :
  tick_callback example_config adc_steady world_heating
    = (SC_NOOP, world_heating) /\
  tick_callback example_config adc_steady
    (snd (tick_callback example_config adc_steady (ISR_TIMER0_OVF world_heating)))
    = (SC_NOOP,
       snd (tick_callback example_config adc_steady (ISR_TIMER0_OVF world_heating))).
Proof.
  split.
  - apply (proj1 (tick_flag_consumed_once example_config adc_steady world_heating)).
    reflexivity.
  - apply (tick_flag_consumed_once example_config adc_steady
             (ISR_TIMER0_OVF world_heating)).
Defined.

(** ** The cadences derived from the base tick *)

(** The two counters after one base interval, for counters in their
    working range. *)
Lemma tick_counters cfg adc w :
  let c := Device.tick_100ms_count (device w) in
  let s := Device.tick_1sec_count (device w) in
  (1 <= c <= 10)%Z -> (1 <= s <= 10)%Z ->
  Device.tick_100ms_count (device (tick cfg adc w))
    = (if (c =? 1)%Z then 10 else c - 1)%Z /\
  Device.tick_1sec_count (device (tick cfg adc w))
    = (if (c =? 1)%Z then (if (s =? 1)%Z then 10 else s - 1) else s)%Z.
Proof.
  intros c s Hc Hs. subst c s. rewrite tick_unfold. cbv zeta.
  match goal with
  | |- context [sensor_callback cfg adc ?w0] =>
      destruct (sensor_callback_frame cfg adc w0) as [_ [_ [Fd _]]];
      set (w1 := sensor_callback cfg adc w0) in *
  end.
  cbn [device upd_device set_device ISR_TIMER0_OVF] in Fd.
  cbn [device upd_device set_device Device.tick_100ms_count
       Device.set_tick_100ms_count].
  rewrite Fd.
  cbn [Device.tick_100ms_count Device.tick_1sec_count Device.set_tick_flag].
  set (c := Device.tick_100ms_count (device w)) in *.
  set (s := Device.tick_1sec_count (device w)) in *.
  assert (Ec : uint8 (c - 1) = (c - 1)%Z).
  { unfold uint8. apply Z.mod_small. lia. }
  rewrite Ec.
  destruct (c =? 1)%Z eqn:E1.
  - apply Z.eqb_eq in E1. rewrite E1. cbn [Z.sub Z.eqb negb Z.add Z.opp Z.pos_sub].
    match goal with
    | |- context [heater_callback cfg ?w0] =>
        destruct (heater_callback_ticks cfg w0) as [[_ [T1 T2]] _];
        set (w3 := heater_callback cfg w0) in *
    end.
    cbn [device upd_device set_device Device.tick_100ms_count
         Device.tick_1sec_count Device.set_tick_100ms_count] in T1, T2.
    rewrite Fd in T2.
    cbn [Device.tick_1sec_count Device.set_tick_flag] in T2. fold s in T2.
    cbn [device upd_device set_device Device.tick_1sec_count
         Device.set_tick_1sec_count].
    rewrite T2.
    assert (Es : uint8 (s - 1) = (s - 1)%Z).
    { unfold uint8. apply Z.mod_small. lia. }
    rewrite Es.
    destruct (s =? 1)%Z eqn:E2.
    + apply Z.eqb_eq in E2. rewrite E2. cbn [Z.sub Z.eqb negb Z.add Z.opp Z.pos_sub].
      cbn [device upd_device set_device Device.tick_100ms_count
           Device.tick_1sec_count Device.set_tick_1sec_count].
      split; [exact T1 | reflexivity].
    + apply Z.eqb_neq in E2.
      assert (E3 : (s - 1 =? 0)%Z = false) by (apply Z.eqb_neq; lia).
      rewrite E3. cbn [negb].
      cbn [device upd_device set_device Device.tick_100ms_count
           Device.tick_1sec_count Device.set_tick_1sec_count].
      rewrite ?T2, ?Es. split; [exact T1 | reflexivity].
  - apply Z.eqb_neq in E1.
    assert (E3 : (c - 1 =? 0)%Z = false) by (apply Z.eqb_neq; lia).
    rewrite E3. cbn [negb].
    cbn [device upd_device set_device Device.tick_100ms_count
         Device.tick_1sec_count Device.set_tick_100ms_count].
    rewrite Fd.
    cbn [Device.tick_100ms_count Device.tick_1sec_count Device.set_tick_flag].
    fold c s. rewrite Ec. split; reflexivity.
Qed.

Lemma ticks_counters cfg adc n : forall w,
  let c := Device.tick_100ms_count (device w) in
  let s := Device.tick_1sec_count (device w) in
  (1 <= c <= 10)%Z -> (1 <= s <= 10)%Z ->
  let phase := (10 * (10 - s) + (10 - c) + Z.of_nat n)%Z in
  Device.tick_100ms_count (device (ticks cfg adc n w)) = (10 - phase mod 10)%Z /\
  Device.tick_1sec_count (device (ticks cfg adc n w))
    = (10 - (phase / 10) mod 10)%Z.
Proof.
  induction n as [| n IH]; intros w c s Hc Hs phase; subst phase.
  - cbn [ticks]. fold c s. rewrite Z.add_0_r. clearbody c s.
    split; Z.div_mod_to_equations; lia.
  - cbn [ticks].
    destruct (tick_counters cfg adc w Hc Hs) as [E1 E2]. fold c s in E1, E2.
    assert (Hc' : (1 <= Device.tick_100ms_count (device (tick cfg adc w)) <= 10)%Z).
    { rewrite E1. destruct (Z.eqb_spec c 1); lia. }
    assert (Hs' : (1 <= Device.tick_1sec_count (device (tick cfg adc w)) <= 10)%Z).
    { rewrite E2. destruct (Z.eqb_spec c 1); [destruct (Z.eqb_spec s 1) |]; lia. }
    destruct (IH (tick cfg adc w) Hc' Hs') as [I1 I2].
    rewrite I1, I2, E1, E2. clear I1 I2 E1 E2 Hc' Hs' IH.
    rewrite Nat2Z.inj_succ. generalize (Z.of_nat n) (Nat2Z.is_nonneg n).
    intros z Hz. clearbody c s.
    destruct (c =? 1)%Z eqn:B1; [apply Z.eqb_eq in B1 | apply Z.eqb_neq in B1].
    + destruct (s =? 1)%Z eqn:B2; [apply Z.eqb_eq in B2 | apply Z.eqb_neq in B2];
        split; Z.div_mod_to_equations; lia.
    + split; Z.div_mod_to_equations; lia.
Qed.

(** X2.  The 100 ms and 1 s cadences stay locked to the base tick: with
    both down counters loaded with 10 (as [tick_init] does), after [n] base
    intervals the 100 ms counter is [10 - n mod 10] and the 1 s counter is
    [10 - (n / 10) mod 10]; they are back at 10 together every 100
    intervals. *)
Theorem tick_cadences_phase_locked :
  forall (cfg : tc_config) (adc : nat -> Z) (n : nat) (w : World),
    Device.tick_100ms_count (device w) = 10%Z ->
    Device.tick_1sec_count (device w) = 10%Z ->
    Device.tick_100ms_count (device (ticks cfg adc n w))
      = (10 - Z.of_nat n mod 10)%Z /\
    Device.tick_1sec_count (device (ticks cfg adc n w))
      = (10 - (Z.of_nat n / 10) mod 10)%Z.
Proof.
  intros cfg adc n w Hc Hs.
  destruct (ticks_counters cfg adc n w) as [E1 E2]; [lia | lia |].
  rewrite Hc, Hs in E1, E2. exact (conj E1 E2).
Qed.

Lemma tick_cadences_phase_locked_witness :
  Device.tick_100ms_count
    (device (ticks example_config adc_steady 25%nat (tick_init World_zero))) = 5%Z /\
  Device.tick_1sec_count
    (device (ticks example_config adc_steady 25%nat (tick_init World_zero))) = 8%Z.
Proof.
  apply (tick_cadences_phase_locked example_config adc_steady 25%nat
           (tick_init World_zero)); reflexivity.
Defined.

(** X3.  The heater is polled on the tick that finds the 100 ms counter at
    1 and on no other: on every other tick (counter in 2..255, or 0) the
    heater struct, the PID and the PWM compare registers are left as they
    were. *)
Theorem tick_between_polls_leaves_heater :
  forall (cfg : tc_config) (adc : nat -> Z) (w : World),
    (0 <= Device.tick_100ms_count (device w) < 256)%Z ->
    Device.tick_100ms_count (device w) <> 1%Z ->
    heater (tick cfg adc w) = heater w /\
    pid (tick cfg adc w) = pid w /\
    OCR2A (tick cfg adc w) = OCR2A w /\
    OCR2B (tick cfg adc w) = OCR2B w /\
    tick cfg adc w =
      upd_device
        (Device.set_tick_100ms_count
           (uint8 (Device.tick_100ms_count (device w) - 1)))
        (sensor_callback cfg adc (upd_device (Device.set_tick_flag 0%Z) w)).
Proof.
  intros cfg adc w Hr Hc. rewrite tick_unfold. cbv zeta.
  match goal with
  | |- context [sensor_callback cfg adc ?w0] =>
      destruct (sensor_callback_frame cfg adc w0) as [Fh [Fp [Fd [Fa Fb]]]];
      assert (Es : sensor_callback cfg adc w0
                   = sensor_callback cfg adc (upd_device (Device.set_tick_flag 0%Z) w))
        by (destruct w as [[] ? ? ? ? ? ?]; reflexivity);
      set (w1 := sensor_callback cfg adc w0) in *
  end.
  cbn [heater pid device OCR2A OCR2B upd_device set_device ISR_TIMER0_OVF] in Fh, Fp, Fd, Fa, Fb.
  cbn [device upd_device set_device Device.tick_100ms_count
       Device.set_tick_100ms_count].
  rewrite Fd. cbn [Device.tick_100ms_count Device.set_tick_flag].
  assert (E : (uint8 (Device.tick_100ms_count (device w) - 1) =? 0)%Z = false).
  { apply Z.eqb_neq. unfold uint8.
    destruct (Z.eq_dec (Device.tick_100ms_count (device w)) 0) as [Z0 | Z0].
    - rewrite Z0. discriminate.
    - rewrite Z.mod_small; lia. }
  rewrite E. cbn [negb].
  cbn [heater pid OCR2A OCR2B upd_device set_device].
  repeat split; try assumption.
  rewrite <- Es.
  unfold upd_device. f_equal. rewrite Fd. reflexivity.
Qed.

Lemma tick_between_polls_leaves_heater_witness :
  heater (tick example_config adc_steady world_heating) = heater world_heating /\
  OCR2B (tick example_config adc_steady world_heating) = OCR2B world_heating.
Proof.
  destruct (tick_between_polls_leaves_heater example_config adc_steady
              world_heating) as [Hh [_ [_ [Hb _]]]].
  - vm_compute. split; [discriminate | reflexivity].
  - vm_compute. discriminate.
  - split; assumption.
Defined.

(** ** One poll of a heating heater whose sensor has data *)

(** The poll in closed form: [w2] is the state after the temperature has
    been read, the PID computed, the duty applied and the timer advanced;
    the two timeout tests then decide between [heater_off] and [w2]. *)
Lemma heater_callback_heating cfg w :
  Heater.state (heater w) = HEATER_HEATING ->
  Sensor.state (sensor w) = SENSOR_HAS_DATA ->
  let T := Sensor.temperature (sensor w) in
  let timer := Heater.regulation_timer (heater w) + HEATER_TICK_SECONDS cfg in
  exists w2,
    heater w2 =
      Heater.set_regulation_timer timer (Heater.set_temperature T (heater w)) /\
    sensor w2 = Sensor.set_samples 0%Z (sensor w) /\
    heater_callback cfg w =
      if Qltb T (Heater.ambient_temperature (heater w))
         && Qgtb timer (Heater.ambient_timeout (heater w))
      then heater_off cfg HEATER_SHUTDOWN HEATER_AMBIENT_TIMED_OUT w2
      else if Qltb T (Heater.setpoint (heater w))
              && Qgtb timer (Heater.regulation_timeout (heater w))
      then heater_off cfg HEATER_SHUTDOWN HEATER_REGULATION_TIMED_OUT w2
      else w2.
Proof.
  intros Hh Hs T timer. subst T timer.
  unfold heater_callback. rewrite Hh. cbn [heater_state_eqb is_eq orb].
  change (heater_state_eqb HEATER_HEATING HEATER_OFF) with false.
  change (heater_state_eqb HEATER_HEATING HEATER_SHUTDOWN) with false.
  cbn [orb].
  unfold sensor_get_state, sensor_get_temperature.
  cbn [sensor sensor_start_temperature_reading upd_sensor set_sensor
       Sensor.state Sensor.temperature Sensor.set_samples].
  rewrite Hs.
  change (sensor_state_eqb SENSOR_HAS_DATA SENSOR_HAS_DATA) with true.
  cbn [negb].
  cbn [heater upd_heater set_heater Heater.setpoint Heater.temperature
       Heater.set_temperature].
  match goal with
  | |- context [pid_calculate cfg ?sp ?t ?w0] =>
      destruct (pid_calculate_only_pid cfg sp t w0) as [p' Ep];
      destruct (pid_calculate cfg sp t w0) as [duty w1]
  end.
  cbn [snd] in Ep. subst w1.
  match goal with
  | |- context [pwm_set_duty cfg duty ?w0] =>
      destruct (pwm_set_duty_frame cfg duty w0) as [Gh [_ [Gs _]]];
      set (w2 := snd (pwm_set_duty cfg duty w0)) in *
  end.
  cbn [heater sensor set_pid set_heater upd_heater set_sensor upd_sensor
       sensor_start_temperature_reading] in Gh, Gs.
  exists (upd_heater
            (fun h : Heater.t =>
               Heater.set_regulation_timer
                 (Heater.regulation_timer h + HEATER_TICK_SECONDS cfg) h) w2).
  cbn [heater sensor upd_heater set_heater].
  rewrite Gh, Gs.
  cbn [Heater.state Heater.temperature Heater.setpoint Heater.regulation_timer
       Heater.ambient_temperature Heater.ambient_timeout
       Heater.regulation_timeout Heater.set_temperature
       Heater.set_regulation_timer].
  rewrite Hh. change (heater_state_eqb HEATER_HEATING HEATER_HEATING) with true.
  cbv iota.
  split; [reflexivity |]. split; reflexivity.
Qed.

Lemma heater_callback_heating_ambient cfg w :
  Heater.state (heater w) = HEATER_HEATING ->
  Sensor.state (sensor w) = SENSOR_HAS_DATA ->
  Sensor.temperature (sensor w) < Heater.ambient_temperature (heater w) ->
  Heater.ambient_timeout (heater w)
    < Heater.regulation_timer (heater w) + HEATER_TICK_SECONDS cfg ->
  exists w2, heater_callback cfg w
             = heater_off cfg HEATER_SHUTDOWN HEATER_AMBIENT_TIMED_OUT w2.
Proof.
  intros Hh Hs HT Ht.
  destruct (heater_callback_heating cfg w Hh Hs) as [w2 [_ [_ E]]].
  exists w2. rewrite E.
  apply Qltb_lt in HT. apply Qgtb_gt in Ht.
  cbn [heater upd_heater set_heater Heater.ambient_temperature
       Heater.ambient_timeout Heater.regulation_timer
       Heater.set_regulation_timer Heater.set_temperature Heater.temperature].
  rewrite HT, Ht. reflexivity.
Qed.

(** X4.  Ambient timeout.  A heating heater whose sensor has data below
    the ambient temperature, polled when the timer advanced by one tick
    exceeds the ambient timeout, is shut down at that poll: state
    [HEATER_SHUTDOWN], code [HEATER_AMBIENT_TIMED_OUT], PWM output off
    ([OCR2B = 255]) and sensor off.  The ambient test comes first: it wins
    also when the regulation timeout has expired too. *)
Theorem heater_ambient_timeout_shuts_down :
  forall (cfg : tc_config) (w : World),
    Heater.state (heater w) = HEATER_HEATING ->
    Sensor.state (sensor w) = SENSOR_HAS_DATA ->
    Sensor.temperature (sensor w) < Heater.ambient_temperature (heater w) ->
    Heater.ambient_timeout (heater w)
      < Heater.regulation_timer (heater w) + HEATER_TICK_SECONDS cfg ->
    let w' := heater_callback cfg w in
    Heater.state (heater w') = HEATER_SHUTDOWN /\
    Heater.code (heater w') = HEATER_AMBIENT_TIMED_OUT /\
    OCR2B w' = 255%Z /\
    Sensor.state (sensor w') = SENSOR_OFF.
Proof.
  intros cfg w Hh Hs HT Ht w'. subst w'.
  destruct (heater_callback_heating_ambient cfg w Hh Hs HT Ht) as [w2 E].
  rewrite E.
  destruct (heater_off_effect cfg HEATER_SHUTDOWN HEATER_AMBIENT_TIMED_OUT w2)
    as [Eh [_ [Es Eo]]].
  rewrite Eh. repeat split; assumption.
Qed.

(** X5.  Regulation timeout.  When the ambient test does not fire (the
    temperature is not below ambient, or the ambient timeout has not
    expired), a heating heater whose sensor has data below the setpoint,
    polled when the timer advanced by one tick exceeds the regulation
    timeout, is shut down with [HEATER_REGULATION_TIMED_OUT], PWM output
    off and sensor off. *)
Theorem heater_regulation_timeout_shuts_down :
  forall (cfg : tc_config) (w : World),
    Heater.state (heater w) = HEATER_HEATING ->
    Sensor.state (sensor w) = SENSOR_HAS_DATA ->
    (Heater.ambient_temperature (heater w) <= Sensor.temperature (sensor w) \/
     Heater.regulation_timer (heater w) + HEATER_TICK_SECONDS cfg
       <= Heater.ambient_timeout (heater w)) ->
    Sensor.temperature (sensor w) < Heater.setpoint (heater w) ->
    Heater.regulation_timeout (heater w)
      < Heater.regulation_timer (heater w) + HEATER_TICK_SECONDS cfg ->
    let w' := heater_callback cfg w in
    Heater.state (heater w') = HEATER_SHUTDOWN /\
    Heater.code (heater w') = HEATER_REGULATION_TIMED_OUT /\
    OCR2B w' = 255%Z /\
    Sensor.state (sensor w') = SENSOR_OFF.
Proof.
  intros cfg w Hh Hs Hamb HT Ht w'. subst w'.
  destruct (heater_callback_heating cfg w Hh Hs) as [w2 [_ [_ E]]].
  rewrite E.
  assert (A : Qltb (Sensor.temperature (sensor w))
                (Heater.ambient_temperature (heater w))
              && Qgtb (Heater.regulation_timer (heater w) + HEATER_TICK_SECONDS cfg)
                   (Heater.ambient_timeout (heater w)) = false).
  { apply andb_false_iff. destruct Hamb as [H | H].
    - left. apply Qltb_ge. exact H.
    - right. apply Qgtb_le. exact H. }
  rewrite A. apply Qltb_lt in HT. apply Qgtb_gt in Ht. rewrite HT, Ht.
  cbn [andb].
  destruct (heater_off_effect cfg HEATER_SHUTDOWN HEATER_REGULATION_TIMED_OUT w2)
    as [Eh [_ [Es Eo]]].
  rewrite Eh. repeat split; assumption.
Qed.


Lemma heater_ambient_timeout_shuts_down_witness :
  let w' := heater_callback example_config world_cold_late in
  Heater.state (heater w') = HEATER_SHUTDOWN /\
  Heater.code (heater w') = HEATER_AMBIENT_TIMED_OUT /\
  OCR2B w' = 255%Z /\
  Sensor.state (sensor w') = SENSOR_OFF.
Proof.
  apply (heater_ambient_timeout_shuts_down example_config world_cold_late);
    vm_compute; reflexivity.
Defined.

Lemma heater_regulation_timeout_shuts_down_witness :
  let w' := heater_callback example_config world_slow_late in
  Heater.state (heater w') = HEATER_SHUTDOWN /\
  Heater.code (heater w') = HEATER_REGULATION_TIMED_OUT /\
  OCR2B w' = 255%Z /\
  Sensor.state (sensor w') = SENSOR_OFF.
Proof.
  apply (heater_regulation_timeout_shuts_down example_config world_slow_late).
  - reflexivity.
  - reflexivity.
  - left. vm_compute. discriminate.
  - vm_compute. reflexivity.
  - vm_compute. reflexivity.
Defined.


(** ** A heater that has been switched off *)

(** A tick with the sensor off or shut down and the heater off or shut
    down touches the tick flag and the down counters only. *)
Lemma tick_idle cfg adc w :
  Sensor.state (sensor w) = SENSOR_OFF \/
  Sensor.state (sensor w) = SENSOR_SHUTDOWN ->
  Heater.state (heater w) = HEATER_OFF \/
  Heater.state (heater w) = HEATER_SHUTDOWN ->
  heater (tick cfg adc w) = heater w /\
  pid (tick cfg adc w) = pid w /\
  sensor (tick cfg adc w) = sensor w /\
  OCR2A (tick cfg adc w) = OCR2A w /\
  OCR2B (tick cfg adc w) = OCR2B w /\
  adc_conversions (tick cfg adc w) = adc_conversions w /\
  Device.pwm_freq (device (tick cfg adc w)) = Device.pwm_freq (device w).
Proof.
  intros Hs Hh. rewrite tick_unfold. cbv zeta.
  rewrite sensor_callback_dead by exact Hs.
  destruct (negb _); [repeat split |].
  rewrite heater_callback_inactive by exact Hh.
  destruct (negb _); repeat split.
Qed.

(** X7.  Once [heater_off] has put the heater in [HEATER_OFF] or
    [HEATER_SHUTDOWN], no number of ticks changes anything but the tick
    counters: the PWM output stays off ([OCR2B = 255]), the heater struct
    keeps the state and code it was given, the PID is as it was before
    [heater_off], the sensor stays off and no ADC conversion is made. *)
Theorem heater_off_stays_off :
  forall (cfg : tc_config) (adc : nat -> Z) (state : heater_state)
         (code : heater_code) (n : nat) (w : World),
    state = HEATER_OFF \/ state = HEATER_SHUTDOWN ->
    let w0 := heater_off cfg state code w in
    let w' := ticks cfg adc n w0 in
    OCR2B w' = 255%Z /\
    heater w' = Heater.set_code code (Heater.set_state state (heater w)) /\
    pid w' = pid w /\
    sensor w' = sensor w0 /\
    Sensor.state (sensor w') = SENSOR_OFF /\
    adc_conversions w' = adc_conversions w.
Proof.
  intros cfg adc st c n w Hst w0 w'.
  destruct (heater_off_effect cfg st c w) as [Eh [Ep [Es Eo]]].
  fold w0 in Eh, Ep, Es, Eo.
  assert (Ea : adc_conversions w0 = adc_conversions w).
  { unfold w0, heater_off, pwm_off, sensor_off.
    destruct (pwm_on_frame cfg 0 0 w) as [_ [_ [_ E]]].
    cbn [adc_conversions upd_heater set_heater upd_sensor set_sensor].
    exact E. }
  assert (Hinv : forall m v,
            heater v = heater w0 -> sensor v = sensor w0 ->
            heater (ticks cfg adc m v) = heater v /\
            pid (ticks cfg adc m v) = pid v /\
            sensor (ticks cfg adc m v) = sensor v /\
            OCR2B (ticks cfg adc m v) = OCR2B v /\
            adc_conversions (ticks cfg adc m v) = adc_conversions v).
  { induction m as [| m IH]; intros v Hv Sv; [repeat split |].
    cbn [ticks].
    destruct (tick_idle cfg adc v) as [T1 [T2 [T3 [_ [T5 [T6 _]]]]]].
    - left. rewrite Sv. exact Es.
    - rewrite Hv, Eh. cbn. destruct Hst; [left | right]; assumption.
    - destruct (IH (tick cfg adc v)) as [I1 [I2 [I3 [I4 I5]]]];
        [congruence | congruence |].
      repeat split; congruence. }
  destruct (Hinv n w0 eq_refl eq_refl) as [I1 [I2 [I3 [I4 I5]]]].
  subst w'. repeat split; congruence.
Qed.

Lemma heater_off_stays_off_witness :
  let w0 :=
    heater_off example_config HEATER_SHUTDOWN HEATER_REGULATION_TIMED_OUT
      world_reading_149 in
  let w' := ticks example_config adc_steady 25%nat w0 in
  OCR2B w' = 255%Z /\
  heater w' =
    Heater.set_code HEATER_REGULATION_TIMED_OUT
      (Heater.set_state HEATER_SHUTDOWN (heater world_reading_149)) /\
  pid w' = pid world_reading_149 /\
  sensor w' = sensor w0 /\
  Sensor.state (sensor w') = SENSOR_OFF /\
  adc_conversions w' = adc_conversions world_reading_149.
Proof.
  apply (@heater_off_stays_off example_config adc_steady
           HEATER_SHUTDOWN HEATER_REGULATION_TIMED_OUT 25%nat world_reading_149).
  right. reflexivity.
Defined.
